(** * wx: an authenticating reverse-proxy gateway

    A shallow embedding of the request pipeline of the [wx] package:
    the OAuth2 session handlers of [auth_server.go], the reverse proxy of
    [proxy_server.go] and the cache layer built on groupcache, followed by
    the properties of these handlers.

    Conventions of the embedding.
    - A Go [string] or [[]byte] is a [string]; a Go [int] is a [Z].
    - An [http.Header] is a finite map from names to lists of values.
    - A handler never inspects what its [http.ResponseWriter] and its
      [Logger] do with a call, so a handler is the list of calls it makes
      on them, in program order ([event]).
    - Functions of packages outside this repository whose internals no
      property depends on ([net/url] parsing, base64, JSON, oauth2, time
      formatting) are fields of the record [Lib]; every property is proved for
      all of them. [RefLib] instantiates the record so that the handlers
      can be run on concrete requests. *)

From Stdlib Require Import ZArith String Ascii List Lia Bool.
From stdpp Require Import base gmap strings list pretty.

(* ===================================================================== *)
(** * Part I: the Go side: errors, strings, headers, cookies, URLs, time *)
(* ===================================================================== *)

Module Go.

(** ** Errors

    Go's [error] is an open interface; these are the dynamic types the
    package meets. [statusError] (proxy_server.go) and [HttpError] (cache)
    are the package's own, [wrapError] is what [fmt.Errorf] builds for a
    format with [%w]; only [wrapError] has an [Unwrap] method. *)
#[warnings="-register-all"]
Inductive error : Type :=
  | errorString (s : string)
  | ErrNoCookie
  | statusError (StatusCode : Z) (Err : option error)
  | HttpError (statusCode : Z)
  | wrapError (msg : string) (err : error).

Inductive Result (A : Type) : Type :=
  | Ok (a : A)
  | Fail (e : error).
Arguments Ok {A} a.
Arguments Fail {A} e.

Definition isOk {A} (r : Result A) : bool :=
  match r with Ok _ => true | Fail _ => false end.

(** [err.Error()]. *)
Fixpoint error_Error (e : error) : string :=
  match e with
  | errorString s => s
  | ErrNoCookie => "http: named cookie not present"
  | statusError c inner =>
      "status " +:+ pretty c +:+ ": err " +:+
      match inner with Some i => error_Error i | None => "<nil>" end
  | HttpError c => "http error : " +:+ pretty c
  | wrapError msg _ => msg
  end.

(** [fmt.Errorf(prefix + "%w", err)]. *)
Definition fmt_Errorf_w (prefix : string) (err : error) : error :=
  wrapError (prefix +:+ error_Error err) err.

(** [errors.As(err, &target)] for a target of type [*statusError]:
    the first error of that type on the [Unwrap] chain. *)
Fixpoint errors_As_statusError (e : error) : option (Z * option error) :=
  match e with
  | statusError c inner => Some (c, inner)
  | wrapError _ e' => errors_As_statusError e'
  | _ => None
  end.

(** [errors.As(err, &target)] for a target of type [*HttpError]. *)
Fixpoint errors_As_HttpError (e : error) : option Z :=
  match e with
  | HttpError c => Some c
  | wrapError _ e' => errors_As_HttpError e'
  | _ => None
  end.

(** ** Strings *)

(** The double quote, and a text between double quotes. *)
Definition dquote : ascii := "034"%char.

Definition quoted (s : string) : string :=
  String dquote (s +:+ String dquote EmptyString).

(** [strings.Cut(s, sep)] for a one-byte separator. *)
Fixpoint cutByte (sep : ascii) (s : string) : option (string * string) :=
  match s with
  | EmptyString => None
  | String c rest =>
      if Ascii.eqb c sep then Some (EmptyString, rest)
      else match cutByte sep rest with
           | Some (before, after) => Some (String c before, after)
           | None => None
           end
  end.

Definition strings_Cut (s : string) (sep : ascii) : string * string * bool :=
  match cutByte sep s with
  | Some (before, after) => (before, after, true)
  | None => (s, EmptyString, false)
  end.

(** [strings.Split(s, sep)] for a one-byte separator. *)
Fixpoint strings_Split (s : string) (sep : ascii) : list string :=
  match s with
  | EmptyString => [EmptyString]
  | String c rest =>
      if Ascii.eqb c sep then EmptyString :: strings_Split rest sep
      else match strings_Split rest sep with
           | p :: ps => String c p :: ps
           | [] => [String c EmptyString]
           end
  end.

Fixpoint strings_Repeat (s : string) (count : nat) : string :=
  match count with
  | O => EmptyString
  | S n => s +:+ strings_Repeat s n
  end.

Fixpoint containsByte (c : ascii) (s : string) : bool :=
  match s with
  | EmptyString => false
  | String d rest => Ascii.eqb c d || containsByte c rest
  end.

Fixpoint forallb_string (p : ascii -> bool) (s : string) : bool :=
  match s with
  | EmptyString => true
  | String c rest => p c && forallb_string p rest
  end.

Definition inRange (lo hi c : ascii) : bool :=
  (N_of_ascii lo <=? N_of_ascii c)%N && (N_of_ascii c <=? N_of_ascii hi)%N.

Definition isLower (c : ascii) : bool := inRange "a" "z" c.
Definition isUpper (c : ascii) : bool := inRange "A" "Z" c.
Definition isDigit (c : ascii) : bool := inRange "0" "9" c.
Definition isLetter (c : ascii) : bool := isLower c || isUpper c.

Definition toUpper (c : ascii) : ascii :=
  if isLower c then ascii_of_N (N_of_ascii c - 32) else c.
Definition toLower (c : ascii) : ascii :=
  if isUpper c then ascii_of_N (N_of_ascii c + 32) else c.

(** [textproto.TrimString]: strips leading and trailing ASCII space. *)
Definition isASCIISpace (c : ascii) : bool :=
  Ascii.eqb c " " || Ascii.eqb c "009" || Ascii.eqb c "010" || Ascii.eqb c "013".

Fixpoint trimLeft (s : string) : string :=
  match s with
  | String c rest => if isASCIISpace c then trimLeft rest else s
  | EmptyString => EmptyString
  end.

Fixpoint trimRight (s : string) : string :=
  match s with
  | EmptyString => EmptyString
  | String c rest =>
      match trimRight rest with
      | EmptyString => if isASCIISpace c then EmptyString else String c EmptyString
      | rest' => String c rest'
      end
  end.

Definition textproto_TrimString (s : string) : string := trimRight (trimLeft s).

(** [httpguts.IsTokenRune], which is also [validHeaderFieldByte]. *)
Definition isTokenByte (c : ascii) : bool :=
  isLetter c || isDigit c ||
  existsb (Ascii.eqb c)
    ["!"; "#"; "$"; "%"; "&"; "'"; "*"; "+"; "-"; "."; "^"; "_"; "`"; "|"; "~"]%char.

(** ** Headers *)

Abbreviation Header := (gmap string (list string)).

(** The second loop of [textproto.canonicalMIMEHeaderKey]: upper case
    at the start and after a dash, lower case elsewhere. *)
Fixpoint canonLoop (upper : bool) (s : string) : string :=
  match s with
  | EmptyString => EmptyString
  | String c rest =>
      let c' := if upper then toUpper c else toLower c in
      String c' (canonLoop (Ascii.eqb c' "-") rest)
  end.

(** [textproto.CanonicalMIMEHeaderKey]: a key with a byte that is not a
    token byte is returned unchanged. *)
Definition CanonicalMIMEHeaderKey (s : string) : string :=
  if forallb_string isTokenByte s then canonLoop true s else s.

Definition Header_values (h : Header) (key : string) : list string :=
  default [] (h !! key).

(** [h.Add(key, value)]: [h[key] = append(h[key], value)] on the
    canonical key. *)
Definition Header_Add (h : Header) (key value : string) : Header :=
  let k := CanonicalMIMEHeaderKey key in
  <[k := Header_values h k ++ [value]]> h.

Definition Header_Set (h : Header) (key value : string) : Header :=
  <[CanonicalMIMEHeaderKey key := [value]]> h.

Definition Header_Del (h : Header) (key : string) : Header :=
  delete (CanonicalMIMEHeaderKey key) h.

(** [h.Get(key)]: the first value under the canonical key, or [""]. *)
Definition Header_Get (h : Header) (key : string) : string :=
  match Header_values h (CanonicalMIMEHeaderKey key) with
  | v :: _ => v
  | [] => EmptyString
  end.

(** ** Cookies *)

Record Cookie : Type := mkCookie {
  Cookie_Name : string;
  Cookie_Value : string;
  Cookie_Path : string;
  Cookie_Expires : option Z;
  Cookie_MaxAge : Z;
  Cookie_HttpOnly : bool
}.

Definition isCookieNameValid (raw : string) : bool :=
  match raw with
  | EmptyString => false
  | _ => forallb_string isTokenByte raw
  end.

Definition validCookieValueByte (b : ascii) : bool :=
  (32 <=? N_of_ascii b)%N && (N_of_ascii b <? 127)%N &&
  negb (Ascii.eqb b dquote) && negb (Ascii.eqb b ";") && negb (Ascii.eqb b "\").

Fixpoint dropLastQuote (s : string) : option string :=
  match s with
  | EmptyString => None
  | String c EmptyString => if Ascii.eqb c dquote then Some EmptyString else None
  | String c rest =>
      match dropLastQuote rest with
      | Some r => Some (String c r)
      | None => None
      end
  end.

(** [parseCookieValue(raw, true)]: one pair of surrounding double quotes
    is stripped, then every byte must be a valid cookie value byte. *)
Definition parseCookieValue (raw : string) : option string :=
  let raw' :=
    match raw with
    | String c rest =>
        if Ascii.eqb c dquote then
          match dropLastQuote rest with Some inner => inner | None => raw end
        else raw
    | EmptyString => raw
    end in
  if forallb_string validCookieValueByte raw' then Some raw' else None.

Definition readCookiePart (filter part : string) : list Cookie :=
  let part := textproto_TrimString part in
  if String.eqb part EmptyString then [] else
  let '(name, val, _) := strings_Cut part "=" in
  let name := textproto_TrimString name in
  if negb (isCookieNameValid name) then [] else
  if negb (String.eqb filter EmptyString) && negb (String.eqb filter name) then [] else
  match parseCookieValue val with
  | Some v => [mkCookie name v EmptyString None 0 false]
  | None => []
  end.

Definition readCookieLine (filter line : string) : list Cookie :=
  flat_map (readCookiePart filter) (strings_Split (textproto_TrimString line) ";").

(** [readCookies(h, filter)]: the cookies of the [Cookie] header lines,
    read by direct map access [h["Cookie"]]. *)
Definition readCookies (h : Header) (filter : string) : list Cookie :=
  flat_map (readCookieLine filter) (Header_values h "Cookie").

(** ** URLs and requests *)

Record URL : Type := mkURL {
  URL_Scheme : string;
  URL_Opaque : string;
  URL_User : option string;
  URL_Host : string;
  URL_Path : string;
  URL_ForceQuery : bool;
  URL_RawQuery : string;
  URL_Fragment : string
}.

(** [u.String()]. The fields [URL_User], [URL_Host], [URL_Path] and
    [URL_Fragment] hold the escaped forms that [String] writes
    ([u.User.String()], [escape(u.Host, encodeHost)], [u.EscapedPath()],
    [u.EscapedFragment()]); [OmitHost] is false. *)
Definition URL_String (u : URL) : string :=
  let scheme :=
    if String.eqb (URL_Scheme u) "" then "" else URL_Scheme u +:+ ":" in
  let body :=
    if negb (String.eqb (URL_Opaque u) "") then scheme +:+ URL_Opaque u
    else
      let hasAuthority :=
        negb (String.eqb (URL_Scheme u) "") || negb (String.eqb (URL_Host u) "")
        || bool_decide (is_Some (URL_User u)) in
      let slashes :=
        if hasAuthority &&
           (negb (String.eqb (URL_Host u) "") || negb (String.eqb (URL_Path u) "")
            || bool_decide (is_Some (URL_User u)))
        then "//" else "" in
      let user :=
        if hasAuthority then
          match URL_User u with Some ui => ui +:+ "@" | None => "" end
        else "" in
      let host := if hasAuthority then URL_Host u else "" in
      let buf := scheme +:+ slashes +:+ user +:+ host in
      let path := URL_Path u in
      let sep :=
        match path with
        | String c _ =>
            if negb (Ascii.eqb c "/") && negb (String.eqb (URL_Host u) "")
            then "/" else ""
        | EmptyString => ""
        end in
      let buf := buf +:+ sep in
      let dot :=
        if String.eqb buf "" && containsByte ":" (fst (fst (strings_Cut path "/")))
        then "./" else "" in
      buf +:+ dot +:+ path in
  let query :=
    if URL_ForceQuery u || negb (String.eqb (URL_RawQuery u) "")
    then "?" +:+ URL_RawQuery u else "" in
  let fragment :=
    if String.eqb (URL_Fragment u) "" then "" else "#" +:+ URL_Fragment u in
  body +:+ query +:+ fragment.

(** [http.Request], with the fields the package reads. [Request_Form] is
    the parsed form ([r.Form] after [ParseMultipartForm]: query and body
    parameters), which is all that [r.FormValue] looks at. *)
Record Request : Type := mkRequest {
  Request_Method : string;
  Request_URL : URL;
  Request_Header : Header;
  Request_Form : gmap string (list string);
  Request_Body : string
}.

(** [r.FormValue(key)]: the first value for the key, or [""]. *)
Definition FormValue (r : Request) (key : string) : string :=
  match Request_Form r !! key with
  | Some (v :: _) => v
  | _ => ""
  end.

(** [r.Cookie(name)]. *)
Definition Request_Cookie (r : Request) (name : string) : Result Cookie :=
  if String.eqb name "" then Fail ErrNoCookie else
  match readCookies (Request_Header r) name with
  | c :: _ => Ok c
  | [] => Fail ErrNoCookie
  end.

Definition with_Header (r : Request) (h : Header) : Request :=
  mkRequest (Request_Method r) (Request_URL r) h (Request_Form r) (Request_Body r).

Record Response : Type := mkResponse {
  Response_StatusCode : Z;
  Response_Header : Header;
  Response_Body : string
}.

(** ** Time

    A [time.Time] is its absolute time: nanoseconds since the zero time
    (January 1, year 1, 00:00 UTC), without its monotonic reading, which
    [Round] strips. A [time.Duration] is nanoseconds. The times are
    those that [time.Time] represents: no operation below leaves its
    range. *)

Definition Second : Z := 1000000000.
Definition Hour : Z := 3600 * Second.

(** [t.Round(d)]: with [r] the remainder of [t] by [d] (what [div]
    returns), [t.Add(-r)] if [lessThanHalf(r, d)] and [t.Add(d - r)]
    otherwise; [t] itself for [d <= 0]. *)
Definition Time_Round (t d : Z) : Z :=
  if (d <=? 0)%Z then t
  else
    let r := (t mod d)%Z in
    if (r + r <? d)%Z then (t - r)%Z else (t + (d - r))%Z.

(** [t.Unix()]: seconds since January 1, 1970 UTC. *)
Definition unixToInternal : Z := 62135596800.
Definition Time_Unix (t : Z) : Z := (t / Second - unixToInternal)%Z.

(** ** oauth2 *)

Record Config : Type := mkConfig {
  Config_AuthURL : string;
  Config_TokenURL : string;
  Config_ClientID : string;
  Config_ClientSecret : string;
  Config_RedirectURL : string;
  Config_Scopes : list string
}.

Record Token : Type := mkToken {
  Token_AccessToken : string;
  Token_TokenType : string;
  Token_Expiry : option Z
}.

(** [oauth2.AccessTypeOffline]. *)
Definition AccessTypeOffline : string * string := ("access_type", "offline").

(** ** What a handler does

    The calls of a handler on its [http.ResponseWriter] [w] and on its
    [Logger], in program order. [SetCookie], [Redirect] and [ErrorReply]
    are the calls [http.SetCookie(w, c)], [http.Redirect(w, r, url, code)]
    and [http.Error(w, msg, code)]; [IoCopy] is [io.Copy(w, body)] and
    [StreamRelay] the call of the proxy's [Stream]. *)
Inductive event : Type :=
  | WriteHeader (code : Z)
  | HeaderAdd (key value : string)
  | SetCookie (c : Cookie)
  | Redirect (url : string) (code : Z)
  | ErrorReply (msg : string) (code : Z)
  | Write (data : string)
  | IoCopy (body : string)
  | StreamRelay (body : string)
  | BodyClose
  | LogError (e : error)
  | LogErrorf (prefix : string) (e : error)
  | LogInfo (args : list string)
  | LogDebug (msg : string).

Definition StatusOK : Z := 200.
Definition StatusTemporaryRedirect : Z := 307.
Definition StatusBadRequest : Z := 400.
Definition StatusInternalServerError : Z := 500.

(** The status line a list of calls puts on the wire: that of the first
    call that writes the header. *)
Fixpoint status (tr : list event) : option Z :=
  match tr with
  | [] => None
  | WriteHeader c :: _ => Some c
  | Redirect _ c :: _ => Some c
  | ErrorReply _ c :: _ => Some c
  | Write _ :: _ => Some StatusOK
  | IoCopy _ :: _ => Some StatusOK
  | _ :: rest => status rest
  end.

(** The cookies a list of calls sets. *)
Fixpoint cookiesSet (tr : list event) : list Cookie :=
  match tr with
  | [] => []
  | SetCookie c :: rest => c :: cookiesSet rest
  | _ :: rest => cookiesSet rest
  end.

(** The redirections a list of calls issues. *)
Fixpoint redirects (tr : list event) : list string :=
  match tr with
  | [] => []
  | Redirect u _ :: rest => u :: redirects rest
  | _ :: rest => redirects rest
  end.

(** The errors a list of calls logs. *)
Fixpoint logged (tr : list event) : list error :=
  match tr with
  | [] => []
  | LogError e :: rest => e :: logged rest
  | LogErrorf _ e :: rest => e :: logged rest
  | _ :: rest => logged rest
  end.

(** The header map of [w] after the [w.Header().Add] calls of a list. *)
Fixpoint headerAfter (h : Header) (tr : list event) : Header :=
  match tr with
  | [] => h
  | HeaderAdd k v :: rest => headerAfter (Header_Add h k v) rest
  | _ :: rest => headerAfter h rest
  end.

End Go.

(* ===================================================================== *)
(** * Part II: the package *)
(* ===================================================================== *)

Module Wx.
Import Go.

(** [State] (auth_server.go). *)
Record State : Type := mkState {
  RedirectUri : string;
  Timestamp : Z
}.

(** The functions of other packages that the handlers call. *)
Record Lib : Type := mkLib {
  (** [url.Parse] *)
  url_Parse : string -> Result URL;
  (** [target.ResolveReference(ref)] *)
  URL_ResolveReference : URL -> URL -> URL;
  (** [http.NewRequest(method, url, body)]: a request with an empty header *)
  http_NewRequest : string -> string -> string -> Result Request;
  (** [base64.StdEncoding] *)
  base64_EncodeToString : string -> string;
  base64_DecodeString : string -> Result string;
  (** [json.Marshal] and [json.Unmarshal] at type [State]; [Unmarshal]
      writes into the value it is given *)
  json_Marshal_State : State -> Result string;
  json_Unmarshal_State : string -> State -> State * option error;
  (** [config.AuthCodeURL(state, opts...)] and
      [config.Exchange(ctx, code)] *)
  Config_AuthCodeURL : Config -> string -> list (string * string) -> string;
  Config_Exchange : Config -> string -> Result Token;
  (** [t.String()], which is how [%v] prints a [time.Time] *)
  Time_String : Z -> string
}.

(** ** auth_server.go *)

Record authServer : Type := mkAuthServer {
  authConfig : Config;
  authCookieName : string;
  stateCookieName : string
}.

Definition WithOAuthConfig (config : Config) (self : authServer) : authServer :=
  mkAuthServer config (authCookieName self) (stateCookieName self).

Definition WithAuthCookieName (name : string) (self : authServer) : authServer :=
  mkAuthServer (authConfig self) name (stateCookieName self).

Definition WithStateCookieName (name : string) (self : authServer) : authServer :=
  mkAuthServer (authConfig self) (authCookieName self) name.

Definition NewAuthServer (opts : list (authServer -> authServer)) : authServer :=
  fold_left (fun server opt => opt server) opts
    (mkAuthServer (mkConfig "" "" "" "" "" []) "auth" "state").

(** What a modifier does to the outbound request it is given: the calls
    on the logger, the request as it leaves it, and the error. *)
Definition Modifier : Type := Request -> list event * Request * option error.

Section AuthServer.
Context (lib : Lib).

Definition encode (value : State) : Result string :=
  match json_Marshal_State lib value with
  | Fail err => Fail err
  | Ok json => Ok (base64_EncodeToString lib json)
  end.

Definition decode (encoded : string) (value : State) : State * option error :=
  let l := (String.length encoded mod 4)%nat in
  let encoded :=
    if (0 <? l)%nat then encoded +:+ strings_Repeat "=" (4 - l) else encoded in
  match base64_DecodeString lib encoded with
  | Fail err => (value, Some err)
  | Ok decoded => json_Unmarshal_State lib decoded value
  end.

Definition checkError (r : Request) : option error :=
  let errType := FormValue r "error" in
  let errDesc := FormValue r "error_description" in
  if negb (String.eqb errType "") then
    Some (errorString (errType +:+ " : " +:+ errDesc))
  else None.

(** [now] is the reading of [time.Now()]. *)
Definition encodeState (now : Z) (r : Request) : Result string :=
  let redirectUri := FormValue r "redirect_uri" in
  let redirectUri := if String.eqb redirectUri "" then "/" else redirectUri in
  encode (mkState redirectUri (Time_Unix now)).

(** In [return state, self.decode(cookie.Value, &state)] Go leaves open
    whether [state] is read before or after the call; the compiler makes
    the call first, and so does the embedding: the state returned is the
    one [decode] leaves. *)
Definition decodeState (self : authServer) (r : Request) : State * option error :=
  let state := mkState "" 0 in
  match Request_Cookie r (stateCookieName self) with
  | Fail err => (state, Some err)
  | Ok cookie =>
      if negb (String.eqb (Cookie_Value cookie) (FormValue r "state")) then
        (state, Some (errorString "Invalid state"))
      else decode (Cookie_Value cookie) state
  end.

(** [now] and [now'] are the two readings of [time.Now()], the first in
    [encodeState], the second for the expiry of the cookie. *)
Definition Login (self : authServer) (now now' : Z) (r : Request) : list event :=
  match encodeState now r with
  | Fail err => [WriteHeader StatusBadRequest; LogError err]
  | Ok state =>
      [SetCookie (mkCookie (stateCookieName self) state "/" (Some (now' + Hour)%Z) 0 true);
       Redirect (Config_AuthCodeURL lib (authConfig self) state [AccessTypeOffline])
                StatusTemporaryRedirect]
  end.

Definition Callback (self : authServer) (r : Request) : list event :=
  match checkError r with
  | Some err => [WriteHeader StatusBadRequest; LogError err]
  | None =>
  match decodeState self r with
  | (_, Some err) => [WriteHeader StatusBadRequest; LogError err]
  | (state, None) =>
  match url_Parse lib (RedirectUri state) with
  | Fail err => [WriteHeader StatusBadRequest; LogError err]
  | Ok redirectUrl =>
  if negb (String.eqb (URL_Host redirectUrl) "") then
    [WriteHeader StatusBadRequest; LogError (errorString "Invalid redirect")]
  else
  match Config_Exchange lib (authConfig self) (FormValue r "code") with
  | Fail err => [WriteHeader StatusBadRequest; LogError err]
  | Ok token =>
      [SetCookie (mkCookie (authCookieName self)
                    (Token_TokenType token +:+ " " +:+ Token_AccessToken token)
                    "/" (Token_Expiry token) 0 true);
       SetCookie (mkCookie (stateCookieName self) "" "/" None (-1) false);
       Redirect (URL_String redirectUrl) StatusTemporaryRedirect]
  end end end end.

Definition Logout (self : authServer) (r : Request) : list event :=
  let redirectUri := FormValue r "redirect_uri" in
  let redirectUri := if String.eqb redirectUri "" then "/" else redirectUri in
  match url_Parse lib redirectUri with
  | Fail err => [WriteHeader StatusBadRequest; LogError err]
  | Ok redirectUrl =>
  if negb (String.eqb (URL_Host redirectUrl) "") then
    [WriteHeader StatusBadRequest; LogError (errorString "Invalid redirect")]
  else
    [SetCookie (mkCookie (authCookieName self) "" "/" None (-1) false);
     Redirect (URL_String redirectUrl) StatusTemporaryRedirect]
  end.

Definition ModifyHeader (self : authServer) : Modifier := fun r =>
  match Request_Cookie r (authCookieName self) with
  | Fail _ => ([LogDebug "Missing authorization cookie"], r, None)
  | Ok cookie =>
      let h := Header_Add (Request_Header r) "Authorization" (Cookie_Value cookie) in
      let h := Header_Del h "Cookie" in
      ([], with_Header r h, None)
  end.

End AuthServer.

(** ** proxy_server.go *)

(** [Client_Do] is [self.Client.Do]: the upstream. *)
Record proxyServer : Type := mkProxyServer {
  Client_Do : Request -> Result Response;
  Target : URL;
  Modifiers : list Modifier
}.

Definition WithClient (client : Request -> Result Response) (self : proxyServer)
  : proxyServer :=
  mkProxyServer client (Target self) (Modifiers self).

Definition WithTarget (target : URL) (self : proxyServer) : proxyServer :=
  mkProxyServer (Client_Do self) target (Modifiers self).

Definition WithModifier (modifier : Modifier) (self : proxyServer) : proxyServer :=
  mkProxyServer (Client_Do self) (Target self) (Modifiers self ++ [modifier]).

Definition NewStatusError (statusCode : Z) (err : option error) : error :=
  statusError statusCode err.

Section ProxyServer.
Context (lib : Lib).

(** The order in which a [range] loop visits a header map. Go leaves it
    unspecified: the properties assume no more than that the loop visits
    every entry once. *)
Context (range : Header -> list (string * list string)).

(** [for h, val := range src { for _, v := range val { dst.Add(h, v) } }] *)
Definition copyHeader (src dst : Header) : Header :=
  fold_left
    (fun d hv => fold_left (fun d' v => Header_Add d' (fst hv) v) (snd hv) d)
    (range src) dst.

(** The same loop on [w.Header()]. *)
Definition copyHeaderEvents (src : Header) : list event :=
  flat_map (fun hv => map (HeaderAdd (fst hv)) (snd hv)) (range src).

(** [for _, modifier := range self.Modifiers { ... }] *)
Fixpoint runModifiers (modifiers : list Modifier) (req : Request)
  : list event * Result Request :=
  match modifiers with
  | [] => ([], Ok req)
  | modifier :: rest =>
      match modifier req with
      | (log, _, Some err) => (log, Fail (fmt_Errorf_w "modifier: " err))
      | (log, req', None) =>
          let (log', res) := runModifiers rest req' in (log ++ log', res)
      end
  end.

Definition NewRequest (self : proxyServer) (r : Request)
  : list event * Result Request :=
  let url := URL_ResolveReference lib (Target self) (Request_URL r) in
  let log := [LogInfo ["<<< "; URL_String (Request_URL r)]] in
  match http_NewRequest lib (Request_Method r) (URL_String url) (Request_Body r) with
  | Fail err => (log, Fail (fmt_Errorf_w "new request: " err))
  | Ok req =>
      let req := with_Header req (copyHeader (Request_Header r) (Request_Header req)) in
      match runModifiers (Modifiers self) req with
      | (log', Fail err) => (log ++ log', Fail err)
      | (log', Ok req) =>
          (log ++ log' ++ [LogInfo [">>> "; URL_String (Request_URL req)]], Ok req)
      end
  end.

(** The relay of the body, after the header is written. The two
    activities of [Stream] are outside this embedding: its call is one
    event. *)
Definition relay (resp : Response) : list event :=
  if String.eqb (Header_Get (Response_Header resp) "Content-Type") "text/event-stream"
  then [StreamRelay (Response_Body resp); LogInfo ["streaming done"]]
  else [IoCopy (Response_Body resp)].

(** [Serve] of proxy_server.go. *)
Definition Serve (self : proxyServer) (r : Request) : list event :=
  match NewRequest self r with
  | (log, Fail err) =>
      log ++ [ErrorReply (error_Error err) StatusInternalServerError;
              LogErrorf "new request : " err]
  | (log, Ok req) =>
      match Client_Do self req with
      | Fail err =>
          log ++ [match err with
                  | statusError code _ => ErrorReply (error_Error err) code
                  | _ => ErrorReply (error_Error err) StatusInternalServerError
                  end;
                  LogErrorf "client do : " err]
      | Ok resp =>
          log ++ copyHeaderEvents (Response_Header resp)
              ++ [WriteHeader (Response_StatusCode resp)]
              ++ relay resp ++ [BodyClose]
      end
  end.

(** The later revision of the file (unnamed/part_001): both failures go
    through [handleError], which looks for a [*statusError] with
    [errors.As]. *)
Definition handleError (err : error) : list event :=
  match errors_As_statusError err with
  | Some (code, inner) =>
      [LogErrorf "handle status error: " err;
       ErrorReply (error_Error (statusError code inner)) code]
  | None =>
      [LogErrorf "handle error: " err;
       ErrorReply (error_Error err) StatusInternalServerError]
  end.

Definition Serve_part_001 (self : proxyServer) (r : Request) : list event :=
  match NewRequest self r with
  | (log, Fail err) => log ++ handleError (fmt_Errorf_w "new request: " err)
  | (log, Ok req) =>
      match Client_Do self req with
      | Fail err => log ++ handleError (fmt_Errorf_w "client do: " err)
      | Ok resp =>
          log ++ copyHeaderEvents (Response_Header resp)
              ++ [WriteHeader (Response_StatusCode resp)]
              ++ relay resp ++ [BodyClose]
      end
  end.

(** An earlier revision of the file (the third text in auth_server.go,
    lines 399 to 548): [Proxy] builds the request and calls the upstream,
    returning the error of a modifier as it is, and [Serve] switches on
    the type of whatever error [Proxy] returns. *)
Fixpoint runModifiers_Proxy (modifiers : list Modifier) (req : Request)
  : list event * Result Request :=
  match modifiers with
  | [] => ([], Ok req)
  | modifier :: rest =>
      match modifier req with
      | (log, _, Some err) => (log, Fail err)
      | (log, req', None) =>
          let (log', res) := runModifiers_Proxy rest req' in (log ++ log', res)
      end
  end.

Definition Proxy (self : proxyServer) (r : Request) : list event * Result Response :=
  let url := URL_ResolveReference lib (Target self) (Request_URL r) in
  let log := [LogInfo ["<<< "; URL_String (Request_URL r)]] in
  match http_NewRequest lib (Request_Method r) (URL_String url) (Request_Body r) with
  | Fail err => (log, Fail err)
  | Ok req =>
      let req := with_Header req (copyHeader (Request_Header r) (Request_Header req)) in
      match runModifiers_Proxy (Modifiers self) req with
      | (log', Fail err) => (log ++ log', Fail err)
      | (log', Ok req) =>
          (log ++ log' ++ [LogInfo [">>> "; URL_String url]], Client_Do self req)
      end
  end.

Definition Serve_Proxy (self : proxyServer) (r : Request) : list event :=
  match Proxy self r with
  | (log, Fail err) =>
      log ++ [match err with
              | statusError code _ => WriteHeader code
              | _ => WriteHeader StatusInternalServerError
              end;
              LogError err]
  | (log, Ok resp) =>
      log ++ copyHeaderEvents (Response_Header resp)
          ++ [WriteHeader (Response_StatusCode resp)]
          ++ (if String.eqb (Header_Get (Response_Header resp) "Content-Type")
                            "text/event-stream"
              then [StreamRelay (Response_Body resp)]
              else [IoCopy (Response_Body resp)])
          ++ [BodyClose]
  end.

End ProxyServer.

(** ** The cache layer (unnamed/part_002) *)

(** The two values [ServeHTTP] stores in the context. *)
Record Context : Type := mkContext {
  contextKeyUrl : option string;
  contextKeyHeaders : option Header
}.

(** [groupcache.AllocatingByteSliceSink(&data)]: [None] is the slice
    nobody has set. *)
Definition Sink : Type := option string.

Definition Sink_SetBytes (b : string) (s : Sink) : Sink * option error :=
  (Some b, None).

(** The calls of a handler on the [http.ResponseWriter] it is given. *)
Inductive writerCall : Type :=
  | CallHeaderAdd (key value : string)
  | CallHeaderSet (key value : string)
  | CallHeaderDel (key : string)
  | CallWrite (bytes : string)
  | CallWriteHeader (statusCode : Z).

(** An [http.Handler], as the calls it makes for a request. *)
Definition Handler : Type := Request -> list writerCall.

Record cacheWriter : Type := mkCacheWriter {
  cw_Sink : Sink;
  cw_header : Header;
  cw_bytes : string;
  cw_statusCode : Z
}.

Definition NewCacheWriter (sink : Sink) : cacheWriter :=
  mkCacheWriter sink ∅ "" 0.

Definition cacheWriter_Write (c : cacheWriter) (bytes : string) : cacheWriter :=
  mkCacheWriter (cw_Sink c) (cw_header c) (cw_bytes c +:+ bytes) (cw_statusCode c).

Definition cacheWriter_WriteHeader (c : cacheWriter) (statusCode : Z) : cacheWriter :=
  mkCacheWriter (cw_Sink c) (cw_header c) (cw_bytes c) statusCode.

Definition cacheWriter_withHeader (c : cacheWriter) (h : Header) : cacheWriter :=
  mkCacheWriter (cw_Sink c) h (cw_bytes c) (cw_statusCode c).

Definition cacheWriter_call (c : cacheWriter) (call : writerCall) : cacheWriter :=
  match call with
  | CallHeaderAdd k v => cacheWriter_withHeader c (Header_Add (cw_header c) k v)
  | CallHeaderSet k v => cacheWriter_withHeader c (Header_Set (cw_header c) k v)
  | CallHeaderDel k => cacheWriter_withHeader c (Header_Del (cw_header c) k)
  | CallWrite bytes => cacheWriter_Write c bytes
  | CallWriteHeader statusCode => cacheWriter_WriteHeader c statusCode
  end.

(** [c.Handler.ServeHTTP(writer, req)] *)
Definition ServeHTTP_on (handler : Handler) (writer : cacheWriter) (req : Request)
  : cacheWriter :=
  fold_left cacheWriter_call (handler req) writer.

Definition NewHttpError (statusCode : Z) : error := HttpError statusCode.

Definition HttpError_Status (e : error) : option Z :=
  match e with HttpError c => Some c | _ => None end.

(** [WriteCache]: the sink after the call, and the error. *)
Definition WriteCache (c : cacheWriter) : Sink * option error :=
  if (cw_statusCode c >=? 400)%Z then (cw_Sink c, Some (NewHttpError (cw_statusCode c)))
  else Sink_SetBytes (cw_bytes c) (cw_Sink c).

Section Cache.
Context (lib : Lib).

Definition createRequest (ctx : Context) : Result Request :=
  match contextKeyUrl ctx with
  | None => Fail (errorString "url missing from context")
  | Some url =>
      match contextKeyHeaders ctx with
      | None => Fail (errorString "headers missing from context")
      | Some headers =>
          match http_NewRequest lib "GET" url "" with
          | Fail err => Fail (fmt_Errorf_w ("request [" +:+ url +:+ "] : ") err)
          | Ok req => Ok (with_Header req headers)
          end
      end
  end.

(** [cacheGetter.Get]: the sink after the call, and the error. *)
Definition cacheGetter_Get (handler : Handler) (ctx : Context) (key : string)
  (dest : Sink) : Sink * option error :=
  match createRequest ctx with
  | Fail err => (dest, Some (fmt_Errorf_w ("create request [" +:+ key +:+ "] : ") err))
  | Ok req =>
      let writer := ServeHTTP_on handler (NewCacheWriter dest) req in
      match WriteCache writer with
      | (dest', Some err) =>
          (dest', Some (fmt_Errorf_w ("write cache [" +:+ key +:+ "] : ") err))
      | (dest', None) => (dest', None)
      end
  end.

(** [groupcache.Group] on one node, with the counters of its [Stats]:
    [Get] answers from the cache when the key is there; otherwise it calls
    the getter, and stores what the getter left in the sink only when the
    getter returned no error. Eviction and peers are left out. *)
Record Group : Type := mkGroup {
  mainCache : gmap string string;
  Stats_Gets : nat;
  Stats_CacheHits : nat;
  Stats_LocalLoads : nat;
  Stats_LocalLoadErrs : nat
}.

Definition NewGroup : Group := mkGroup ∅ 0 0 0 0.

Definition Group_Get (getter : Context -> string -> Sink -> Sink * option error)
  (g : Group) (ctx : Context) (key : string) (dest : Sink)
  : Group * Sink * option error :=
  match mainCache g !! key with
  | Some value =>
      (mkGroup (mainCache g) (S (Stats_Gets g)) (S (Stats_CacheHits g))
         (Stats_LocalLoads g) (Stats_LocalLoadErrs g),
       Some value, None)
  | None =>
      match getter ctx key dest with
      | (dest', Some err) =>
          (mkGroup (mainCache g) (S (Stats_Gets g)) (Stats_CacheHits g)
             (Stats_LocalLoads g) (S (Stats_LocalLoadErrs g)),
           dest', Some err)
      | (dest', None) =>
          let value := default "" dest' in
          (mkGroup (<[key := value]> (mainCache g)) (S (Stats_Gets g))
             (Stats_CacheHits g) (S (Stats_LocalLoads g)) (Stats_LocalLoadErrs g),
           Some value, None)
      end
  end.

(** [NewGroupCache(handler)] and its [Get]. *)
Definition NewGroupCache_Get (handler : Handler) :=
  Group_Get (cacheGetter_Get handler).

(** The number of times the group has run its getter. *)
Definition loads (g : Group) : nat := Stats_LocalLoads g + Stats_LocalLoadErrs g.

(** The key of [ServeHTTP]:
    [fmt.Sprintf("[%v]%v", time.Now().Round(c.Duration), url)]. *)
Definition cacheKey (now ttl : Z) (url : string) : string :=
  "[" +:+ Time_String lib (Time_Round now ttl) +:+ "]" +:+ url.

Definition serveError (err : error) : list event :=
  [LogErrorf "error : " err;
   match errors_As_HttpError err with
   | Some code => ErrorReply (error_Error err) code
   | None => ErrorReply (error_Error err) StatusInternalServerError
   end].

(** [proxyCache.ServeHTTP], over the group of [NewGroupCache(handler)];
    [ttl] is [c.Duration] and [now] the reading of [time.Now()]. *)
Definition proxyCache_ServeHTTP (handler : Handler) (ttl : Z) (g : Group)
  (now : Z) (r : Request) : Group * list event :=
  let url := URL_String (Request_URL r) in
  let ctx := mkContext (Some url) (Some (Request_Header r)) in
  let key := cacheKey now ttl url in
  match NewGroupCache_Get handler g ctx key None with
  | (g', _, Some err) => (g', LogInfo ["fetching key : "; key] :: serveError err)
  | (g', data, None) =>
      let data := default "" data in
      (g', [LogInfo ["fetching key : "; key];
            LogInfo ["found key : "; key; ", size : "; pretty (String.length data); " bytes"];
            WriteHeader StatusOK; Write data])
  end.

End Cache.

End Wx.

(* ===================================================================== *)
(** * Part III: a reference instance of [Lib]

    [RefLib.lib] lets the handlers run on concrete requests. Its base64 is
    RFC 4648 with padding. Its URL parser follows [url.Parse] on URLs
    without percent-escapes, user information or bracketed hosts and fails
    on the others; its JSON reads the rendering of a [State] that
    [json.Marshal] produces and fails on other texts; its times print in
    the location UTC; its identity provider knows one authorization
    code. The properties of Part V hold for every [Lib]; the instance
    serves their examples. *)
(* ===================================================================== *)

Module RefLib.
Import Go Wx.

(** *** base64 *)

Definition b64alphabet : string :=
  "ABCDEFGHIJKLMNOPQRSTUVWXYZabcdefghijklmnopqrstuvwxyz0123456789+/".

Definition b64char (n : N) : ascii :=
  match String.get (N.to_nat n) b64alphabet with
  | Some c => c
  | None => "="%char
  end.

Fixpoint indexOf (c : ascii) (s : string) (i : N) : option N :=
  match s with
  | EmptyString => None
  | String d rest => if Ascii.eqb c d then Some i else indexOf c rest (i + 1)%N
  end.

Definition b64value (c : ascii) : option N := indexOf c b64alphabet 0.

Fixpoint b64encode (s : string) : string :=
  match s with
  | EmptyString => EmptyString
  | String a EmptyString =>
      let n := (N_of_ascii a * 65536)%N in
      String (b64char (n / 262144)) (String (b64char (n / 4096 mod 64)) "==")
  | String a (String b EmptyString) =>
      let n := (N_of_ascii a * 65536 + N_of_ascii b * 256)%N in
      String (b64char (n / 262144)) (String (b64char (n / 4096 mod 64))
        (String (b64char (n / 64 mod 64)) "="))
  | String a (String b (String c rest)) =>
      let n := (N_of_ascii a * 65536 + N_of_ascii b * 256 + N_of_ascii c)%N in
      String (b64char (n / 262144)) (String (b64char (n / 4096 mod 64))
        (String (b64char (n / 64 mod 64)) (String (b64char (n mod 64))
          (b64encode rest))))
  end.

Definition corrupt : error := errorString "illegal base64 data".

Fixpoint b64decode (s : string) : Result string :=
  match s with
  | EmptyString => Ok EmptyString
  | String a (String b (String c (String d rest))) =>
      match b64value a, b64value b with
      | Some x, Some y =>
          let byte1 := ascii_of_N ((x * 4 + y / 16) mod 256) in
          match b64value c, b64value d, rest with
          | Some z, Some w, _ =>
              match b64decode rest with
              | Ok tail =>
                  Ok (String byte1
                       (String (ascii_of_N ((y * 16 + z / 4) mod 256))
                          (String (ascii_of_N ((z * 64 + w) mod 256)) tail)))
              | Fail e => Fail e
              end
          | Some z, None, EmptyString =>
              if Ascii.eqb d "=" then
                Ok (String byte1
                     (String (ascii_of_N ((y * 16 + z / 4) mod 256)) EmptyString))
              else Fail corrupt
          | None, None, EmptyString =>
              if Ascii.eqb c "=" && Ascii.eqb d "=" then Ok (String byte1 EmptyString)
              else Fail corrupt
          | _, _, _ => Fail corrupt
          end
      | _, _ => Fail corrupt
      end
  | _ => Fail corrupt
  end.

Fixpoint dropNewlines (s : string) : string :=
  match s with
  | EmptyString => EmptyString
  | String c rest =>
      if Ascii.eqb c "010" || Ascii.eqb c "013" then dropNewlines rest
      else String c (dropNewlines rest)
  end.

Definition DecodeString (s : string) : Result string := b64decode (dropNewlines s).

(** *** decimal and hexadecimal digits *)

Definition digit (n : Z) : ascii := ascii_of_N (48 + Z.to_N (n mod 10)).

(** The [w] low decimal digits of [n]. *)
Fixpoint decimal (w : nat) (n : Z) : string :=
  match w with
  | O => EmptyString
  | S w' => decimal w' (n / 10) +:+ String (digit n) EmptyString
  end.

Fixpoint stripZeros (keep : nat) (s : string) : string :=
  match s with
  | String c rest =>
      if Ascii.eqb c "0" && (keep <? String.length s)%nat then stripZeros keep rest
      else s
  | EmptyString => EmptyString
  end.

(** A natural number in decimal, on at least [keep] digits. *)
Definition decimalMin (keep : nat) (n : Z) : string :=
  stripZeros keep (decimal (keep + S (Z.to_nat (Z.log2 n))) n).

Definition hexDigit (n : N) : ascii :=
  match String.get (N.to_nat n) "0123456789abcdef" with
  | Some c => c
  | None => "0"%char
  end.

Definition hexValue (c : ascii) : option N :=
  indexOf (toLower c) "0123456789abcdef" 0.

(** *** JSON at type [State] *)

Definition jsonEscapeByte (c : ascii) : string :=
  if Ascii.eqb c dquote then String "\" (String dquote EmptyString)
  else if Ascii.eqb c "\" then "\\"
  else if Ascii.eqb c "010" then "\n"
  else if Ascii.eqb c "013" then "\r"
  else if Ascii.eqb c "009" then "\t"
  else if (N_of_ascii c <? 32)%N || Ascii.eqb c "<" || Ascii.eqb c ">" || Ascii.eqb c "&"
  then "\u00" +:+ String (hexDigit (N_of_ascii c / 16))
                   (String (hexDigit (N_of_ascii c mod 16)) EmptyString)
  else String c EmptyString.

Fixpoint jsonEscape (s : string) : string :=
  match s with
  | EmptyString => EmptyString
  | String c rest => jsonEscapeByte c +:+ jsonEscape rest
  end.

Definition Marshal_State (v : State) : Result string :=
  Ok ("{" +:+ quoted "RedirectUri" +:+ ":" +:+ quoted (jsonEscape (RedirectUri v))
      +:+ "," +:+ quoted "Timestamp" +:+ ":" +:+ pretty (Timestamp v) +:+ "}").

Fixpoint stripPrefix (p s : string) : option string :=
  match p, s with
  | EmptyString, _ => Some s
  | String a p', String b s' => if Ascii.eqb a b then stripPrefix p' s' else None
  | _, _ => None
  end.

(** The characters of a JSON string up to its closing quote, and the
    text after it. *)
Fixpoint readJSONString (s : string) : option (string * string) :=
  match s with
  | EmptyString => None
  | String c rest =>
      if Ascii.eqb c dquote then Some (EmptyString, rest)
      else if Ascii.eqb c "\" then
        match rest with
        | String "u" (String h1 (String h2 (String h3 (String h4 rest')))) =>
            match hexValue h1, hexValue h2, hexValue h3, hexValue h4 with
            | Some 0%N, Some 0%N, Some x, Some y =>
                match readJSONString rest' with
                | Some (str, after) => Some (String (ascii_of_N (x * 16 + y)) str, after)
                | None => None
                end
            | _, _, _, _ => None
            end
        | String e rest' =>
            let unescaped :=
              if Ascii.eqb e dquote then Some dquote
              else if Ascii.eqb e "\" then Some "\"%char
              else if Ascii.eqb e "/" then Some "/"%char
              else if Ascii.eqb e "n" then Some "010"%char
              else if Ascii.eqb e "r" then Some "013"%char
              else if Ascii.eqb e "t" then Some "009"%char
              else None in
            match unescaped, readJSONString rest' with
            | Some u, Some (str, after) => Some (String u str, after)
            | _, _ => None
            end
        | EmptyString => None
        end
      else if (N_of_ascii c <? 32)%N then None
      else
        match readJSONString rest with
        | Some (str, after) => Some (String c str, after)
        | None => None
        end
  end.

(** The digits at the head of a text, as a number, and the text after. *)
Fixpoint readDigits (acc : Z) (s : string) : Z * string :=
  match s with
  | String c rest =>
      if isDigit c then readDigits (acc * 10 + Z.of_N (N_of_ascii c - 48)) rest
      else (acc, s)
  | EmptyString => (acc, s)
  end.

Definition readInt (s : string) : option (Z * string) :=
  match s with
  | String "-" (String c rest) =>
      if isDigit c then
        let (n, after) := readDigits 0 (String c rest) in Some ((- n)%Z, after)
      else None
  | String c _ =>
      if isDigit c then Some (readDigits 0 s) else None
  | EmptyString => None
  end.

Definition syntaxError : error := errorString "invalid character in JSON text".

Definition Unmarshal_State (data : string) (v : State) : State * option error :=
  match stripPrefix ("{" +:+ quoted "RedirectUri" +:+ ":" +:+ String dquote "") data with
  | None => (v, Some syntaxError)
  | Some rest =>
      match readJSONString rest with
      | None => (v, Some syntaxError)
      | Some (uri, rest) =>
          match stripPrefix ("," +:+ quoted "Timestamp" +:+ ":") rest with
          | None => (v, Some syntaxError)
          | Some rest =>
              match readInt rest with
              | Some (n, "}") => (mkState uri n, None)
              | _ => (v, Some syntaxError)
              end
          end
      end
  end.

(** *** URLs *)

Definition stringContainsCTLByte (s : string) : bool :=
  negb (forallb_string
          (fun c => negb ((N_of_ascii c <? 32)%N || Ascii.eqb c "127")) s).

(** [getScheme]: [Ok None] stands for "no scheme, the path is the whole
    text". *)
Fixpoint getScheme (first : bool) (s : string)
  : Result (option (string * string)) :=
  match s with
  | EmptyString => Ok None
  | String c rest =>
      let continue :=
        match getScheme false rest with
        | Ok (Some (scheme, path)) => Ok (Some (String c scheme, path))
        | other => other
        end in
      if isLetter c then continue
      else if isDigit c || Ascii.eqb c "+" || Ascii.eqb c "-" || Ascii.eqb c "." then
        if first then Ok None else continue
      else if Ascii.eqb c ":" then
        if first then Fail (errorString "missing protocol scheme")
        else Ok (Some (EmptyString, rest))
      else Ok None
  end.

Fixpoint stringMap (f : ascii -> ascii) (s : string) : string :=
  match s with
  | EmptyString => EmptyString
  | String c rest => String (f c) (stringMap f rest)
  end.

Definition hasPrefix (p s : string) : bool := bool_decide (is_Some (stripPrefix p s)).

Definition validHostByte (c : ascii) : bool :=
  isLetter c || isDigit c || (128 <=? N_of_ascii c)%N ||
  existsb (Ascii.eqb c)
    ["-"; "_"; "."; "~"; "!"; "$"; "&"; "'"; "("; ")"; "*"; "+"; ","; ";"; "=";
     ":"; "["; "]"; "<"; ">"; dquote]%char.

(** The text from the last colon on, if there is a colon. *)
Fixpoint fromLastColon (s : string) : option string :=
  match s with
  | EmptyString => None
  | String c rest =>
      match fromLastColon rest with
      | Some p => Some p
      | None => if Ascii.eqb c ":" then Some s else None
      end
  end.

Definition validOptionalPort (port : string) : bool :=
  match port with
  | EmptyString => true
  | String c digits => Ascii.eqb c ":" && forallb_string isDigit digits
  end.

Definition outside (what : string) : error :=
  errorString (what +:+ " is outside the reference parser").

Definition parseHost (host : string) : Result string :=
  if hasPrefix "[" host then Fail (outside "a bracketed host")
  else if containsByte "%" host then Fail (outside "a percent-escape")
  else if negb (validOptionalPort (default "" (fromLastColon host))) then
    Fail (errorString "invalid port after host")
  else if negb (forallb_string validHostByte host) then
    Fail (errorString "invalid character in host name")
  else Ok host.

Definition parseAuthority (authority : string) : Result string :=
  if containsByte "@" authority then Fail (outside "user information")
  else parseHost authority.

(** [parse(rawURL, false)] *)
Definition parse (rawURL : string) : Result URL :=
  if stringContainsCTLByte rawURL then
    Fail (errorString "net/url: invalid control character in URL")
  else if String.eqb rawURL "*" then Ok (mkURL "" "" None "" "*" false "" "")
  else
  match getScheme true rawURL with
  | Fail err => Fail err
  | Ok sch =>
      let scheme := stringMap toLower (match sch with Some (s, _) => s | None => "" end) in
      let rest := match sch with Some (_, p) => p | None => rawURL end in
      let '(rest, forceQuery, rawQuery) :=
        match cutByte "?" rest with
        | Some (before, EmptyString) => (before, true, EmptyString)
        | Some (before, after) => (before, false, after)
        | None => (rest, false, EmptyString)
        end in
      if negb (hasPrefix "/" rest) && negb (String.eqb scheme "") then
        Ok (mkURL scheme rest None "" "" forceQuery rawQuery "")
      else if negb (hasPrefix "/" rest)
              && containsByte ":" (fst (fst (strings_Cut rest "/"))) then
        Fail (errorString "first path segment in URL cannot contain colon")
      else
        let withPath (host path : string) : Result URL :=
          if containsByte "%" path then Fail (outside "a percent-escape")
          else Ok (mkURL scheme "" None host path forceQuery rawQuery "") in
        if (negb (String.eqb scheme "") || negb (hasPrefix "///" rest))
           && hasPrefix "//" rest then
          let afterSlashes := default "" (stripPrefix "//" rest) in
          let '(authority, path) :=
            match cutByte "/" afterSlashes with
            | Some (a, p) => (a, String "/" p)
            | None => (afterSlashes, EmptyString)
            end in
          match parseAuthority authority with
          | Fail err => Fail err
          | Ok host => withPath host path
          end
        else withPath "" rest
  end.

(** [url.Parse] *)
Definition Parse (rawURL : string) : Result URL :=
  let '(u, frag, _) := strings_Cut rawURL "#" in
  match parse u with
  | Fail err => Fail (wrapError ("parse " +:+ quoted u +:+ ": " +:+ error_Error err) err)
  | Ok url =>
      if containsByte "%" frag then Fail (outside "a percent-escape")
      else Ok (mkURL (URL_Scheme url) (URL_Opaque url) (URL_User url) (URL_Host url)
                 (URL_Path url) (URL_ForceQuery url) (URL_RawQuery url) frag)
  end.

(** [resolvePath(base, ref)], on the list of the elements between
    slashes: the elements kept so far are [dst], last one first. *)
Fixpoint removeDots (elems dst : list string) : list string :=
  match elems with
  | [] => rev dst
  | elem :: rest =>
      if String.eqb elem "." then
        removeDots rest (match rest with [] => EmptyString :: dst | _ => dst end)
      else if String.eqb elem ".." then
        removeDots rest (match rest with [] => EmptyString :: tail dst | _ => tail dst end)
      else removeDots rest (elem :: dst)
  end.

Fixpoint beforeLastSlash (s : string) : option string :=
  match s with
  | EmptyString => None
  | String c rest =>
      match beforeLastSlash rest with
      | Some p => Some (String c p)
      | None => if Ascii.eqb c "/" then Some EmptyString else None
      end
  end.

Fixpoint joinSlash (elems : list string) : string :=
  match elems with
  | [] => EmptyString
  | [e] => e
  | e :: rest => e +:+ "/" +:+ joinSlash rest
  end.

Definition resolvePath (base ref : string) : string :=
  let full :=
    match ref with
    | EmptyString => base
    | String c _ =>
        if Ascii.eqb c "/" then ref
        else match beforeLastSlash base with
             | Some dir => dir +:+ "/" +:+ ref
             | None => ref
             end
    end in
  if String.eqb full "" then ""
  else
    let elems := strings_Split full "/" in
    let elems := match elems with EmptyString :: rest => rest | _ => elems end in
    "/" +:+ joinSlash (removeDots elems []).

(** [u.ResolveReference(ref)] *)
Definition ResolveReference (u ref : URL) : URL :=
  let scheme := if String.eqb (URL_Scheme ref) "" then URL_Scheme u else URL_Scheme ref in
  if negb (String.eqb (URL_Scheme ref) "") || negb (String.eqb (URL_Host ref) "")
     || bool_decide (is_Some (URL_User ref)) then
    mkURL scheme (URL_Opaque ref) (URL_User ref) (URL_Host ref)
      (resolvePath (URL_Path ref) "") (URL_ForceQuery ref) (URL_RawQuery ref)
      (URL_Fragment ref)
  else if negb (String.eqb (URL_Opaque ref) "") then
    mkURL scheme (URL_Opaque ref) None "" "" (URL_ForceQuery ref) (URL_RawQuery ref)
      (URL_Fragment ref)
  else
    let inherit :=
      String.eqb (URL_Path ref) "" && negb (URL_ForceQuery ref)
      && String.eqb (URL_RawQuery ref) "" in
    let rawQuery := if inherit then URL_RawQuery u else URL_RawQuery ref in
    let fragment :=
      if inherit && String.eqb (URL_Fragment ref) "" then URL_Fragment u
      else URL_Fragment ref in
    if String.eqb (URL_Path ref) "" && negb (String.eqb (URL_Opaque u) "") then
      mkURL scheme (URL_Opaque u) None "" "" (URL_ForceQuery ref) rawQuery fragment
    else
      mkURL scheme "" (URL_User u) (URL_Host u)
        (resolvePath (URL_Path u) (URL_Path ref)) (URL_ForceQuery ref) rawQuery fragment.

(** [http.NewRequest(method, url, body)] *)
Definition NewRequest (method url body : string) : Result Request :=
  let method := if String.eqb method "" then "GET" else method in
  if negb (forallb_string isTokenByte method) then
    Fail (errorString ("net/http: invalid method " +:+ quoted method))
  else
    match Parse url with
    | Fail err => Fail err
    | Ok u => Ok (mkRequest method u ∅ ∅ body)
    end.

(** *** oauth2 *)

(** [url.QueryEscape] *)
Definition shouldEscape (c : ascii) : bool :=
  negb (isLetter c || isDigit c || Ascii.eqb c "-" || Ascii.eqb c "_"
        || Ascii.eqb c "." || Ascii.eqb c "~").

Fixpoint QueryEscape (s : string) : string :=
  match s with
  | EmptyString => EmptyString
  | String c rest =>
      (if Ascii.eqb c " " then "+"
       else if shouldEscape c then
         String "%" (String (toUpper (hexDigit (N_of_ascii c / 16)))
                       (String (toUpper (hexDigit (N_of_ascii c mod 16))) EmptyString))
       else String c EmptyString) +:+ QueryEscape rest
  end.

(** [v.Set(key, value)] on the pairs of a [url.Values], kept sorted by
    key as [Encode] writes them. *)
Fixpoint Values_Set (key value : string) (v : list (string * string))
  : list (string * string) :=
  match v with
  | [] => [(key, value)]
  | (k, x) :: rest =>
      match String.compare key k with
      | Lt => (key, value) :: v
      | Eq => (key, value) :: rest
      | Gt => (k, x) :: Values_Set key value rest
      end
  end.

Fixpoint Values_Encode (v : list (string * string)) : string :=
  match v with
  | [] => EmptyString
  | [(k, x)] => QueryEscape k +:+ "=" +:+ QueryEscape x
  | (k, x) :: rest => QueryEscape k +:+ "=" +:+ QueryEscape x +:+ "&" +:+ Values_Encode rest
  end.

Fixpoint joinSpace (l : list string) : string :=
  match l with
  | [] => EmptyString
  | [e] => e
  | e :: rest => e +:+ " " +:+ joinSpace rest
  end.

(** [c.AuthCodeURL(state, opts...)] *)
Definition AuthCodeURL (c : Config) (state : string) (opts : list (string * string))
  : string :=
  let v := Values_Set "client_id" (Config_ClientID c) [("response_type", "code")] in
  let v := if String.eqb (Config_RedirectURL c) "" then v
           else Values_Set "redirect_uri" (Config_RedirectURL c) v in
  let v := match Config_Scopes c with
           | [] => v
           | scopes => Values_Set "scope" (joinSpace scopes) v
           end in
  let v := if String.eqb state "" then v else Values_Set "state" state v in
  let v := fold_left (fun v opt => Values_Set (fst opt) (snd opt) v) opts v in
  Config_AuthURL c +:+ (if containsByte "?" (Config_AuthURL c) then "&" else "?")
    +:+ Values_Encode v.

(** The identity provider of the instance: it grants a token for the
    authorization code ["abc"] and refuses every other code. *)
Definition Exchange (c : Config) (code : string) : Result Token :=
  if String.eqb code "abc" then Ok (mkToken "token-abc" "Bearer" None)
  else Fail (errorString "oauth2: cannot fetch token: 400 Bad Request").

(** *** Times in UTC *)

(** Year, month and day of the day [days] after January 1, year 1. *)
Definition civil (days : Z) : Z * Z * Z :=
  let z := (days + 306)%Z in
  let era := (z / 146097)%Z in
  let doe := (z mod 146097)%Z in
  let yoe := ((doe - doe / 1460 + doe / 36524 - doe / 146096) / 365)%Z in
  let doy := (doe - (365 * yoe + yoe / 4 - yoe / 100))%Z in
  let mp := ((5 * doy + 2) / 153)%Z in
  let d := (doy - (153 * mp + 2) / 5 + 1)%Z in
  let m := if (mp <? 10)%Z then (mp + 3)%Z else (mp - 9)%Z in
  let y := (yoe + era * 400 + (if (m <=? 2)%Z then 1 else 0))%Z in
  (y, m, d).

Fixpoint stripTrailingZeros (s : string) : string :=
  match s with
  | EmptyString => EmptyString
  | String c rest =>
      match stripTrailingZeros rest with
      | EmptyString => if Ascii.eqb c "0" then EmptyString else String c EmptyString
      | rest' => String c rest'
      end
  end.

(** [t.String()] in UTC: the layout
    ["2006-01-02 15:04:05.999999999 -0700 MST"]. *)
Definition String_UTC (t : Z) : string :=
  let sec := (t / Second)%Z in
  let nsec := (t mod Second)%Z in
  let '(y, m, d) := civil (sec / 86400) in
  let rem := (sec mod 86400)%Z in
  let year := if (y <? 0)%Z then "-" +:+ decimalMin 4 (- y) else decimalMin 4 y in
  let frac :=
    match stripTrailingZeros (decimal 9 nsec) with
    | EmptyString => EmptyString
    | digits => "." +:+ digits
    end in
  year +:+ "-" +:+ decimal 2 m +:+ "-" +:+ decimal 2 d +:+ " "
    +:+ decimal 2 (rem / 3600) +:+ ":" +:+ decimal 2 (rem / 60 mod 60) +:+ ":"
    +:+ decimal 2 (rem mod 60) +:+ frac +:+ " +0000 UTC".

Definition lib : Lib :=
  mkLib Parse ResolveReference NewRequest b64encode DecodeString
        Marshal_State Unmarshal_State AuthCodeURL Exchange String_UTC.

End RefLib.

(* ===================================================================== *)
(** * Part IV: the vocabulary of the properties *)
(* ===================================================================== *)

Module Props.
Import Go Wx.

(** The request a modifier leaves, and the error it returns. *)
Definition modified (res : list event * Request * option error) : Request :=
  snd (fst res).
Definition returned (res : list event * Request * option error) : option error :=
  snd res.

(** A step of [Callback] fails: an [error] parameter is present, the
    state does not validate, the redirect target does not parse or has a
    host, or the exchange of the code fails. *)
Definition Callback_step_fails (lib : Lib) (self : authServer) (r : Request) : Prop :=
  FormValue r "error" <> ""
  \/ snd (decodeState lib self r) <> None
  \/ (exists err, url_Parse lib (RedirectUri (fst (decodeState lib self r))) = Fail err)
  \/ (exists u, url_Parse lib (RedirectUri (fst (decodeState lib self r))) = Ok u
                /\ URL_Host u <> "")
  \/ (exists err, Config_Exchange lib (authConfig self) (FormValue r "code") = Fail err).

(** A rejection: the status 400 and the error in the log, nothing else. *)
Definition rejection (tr : list event) : Prop :=
  exists err, tr = [WriteHeader StatusBadRequest; LogError err].

(** The redirect target of [Logout]: the form value, or ["/"]. *)
Definition Logout_target (r : Request) : string :=
  if String.eqb (FormValue r "redirect_uri") "" then "/" else FormValue r "redirect_uri".





(** The bytes a handler writes, in order. *)
Fixpoint written (calls : list writerCall) : string :=
  match calls with
  | [] => EmptyString
  | CallWrite bytes :: rest => bytes +:+ written rest
  | _ :: rest => written rest
  end.

(** The handler never calls [WriteHeader]. *)
Fixpoint noWriteHeader (calls : list writerCall) : bool :=
  match calls with
  | [] => true
  | CallWriteHeader _ :: _ => false
  | _ :: rest => noWriteHeader rest
  end.

(** The groups that [Get] calls lead to from the empty group. *)
Inductive reachable (lib : Lib) (handler : Handler) : Group -> Prop :=
  | reachable_new : reachable lib handler NewGroup
  | reachable_Get g ctx key dest :
      reachable lib handler g ->
      reachable lib handler (fst (fst (NewGroupCache_Get lib handler g ctx key dest))).

End Props.

(** ** Sample requests *)

Module Examples.
Import Go Wx.

Definition get (path query : string) (h : Header) (form : gmap string (list string))
  : Request :=
  mkRequest "GET" (mkURL "" "" None "" path false query "") h form "".

Definition config : Config :=
  mkConfig "https://idp.example/auth" "https://idp.example/token" "wx" "secret"
           "https://wx.example/auth/callback" ["openid"].

Definition server : authServer := NewAuthServer [WithOAuthConfig config].

(** A request with a cookie that is not the session cookie. *)
Definition themed : Request :=
  get "/api/items" "" {[ "Cookie" := ["theme=dark"] ]} ∅.

(** A request with the session cookie and another cookie. *)
Definition signedIn : Request :=
  get "/api/items" "" {[ "Cookie" := ["theme=dark; auth=Bearer token-abc"] ]} ∅.

Definition evil : string := "http://evil.example/".

Definition login_evil : Request :=
  get "/auth/login" "redirect_uri=http://evil.example/" ∅
      {[ "redirect_uri" := [evil] ]}.

Definition logout_evil : Request :=
  get "/auth/logout" "redirect_uri=http://evil.example/" ∅
      {[ "redirect_uri" := [evil] ]}.

(** The state that [Login] issues for a target, at the Unix time 0. *)
Definition stateFor (target : string) : string :=
  match encode RefLib.lib (mkState target 0) with
  | Ok state => state
  | Fail _ => ""
  end.

(** A callback that brings back the state of its cookie. *)
Definition callback (target code : string) : Request :=
  get "/auth/callback" "" {[ "Cookie" := ["state=" +:+ stateFor target] ]}
      {[ "state" := [stateFor target]; "code" := [code] ]}.

Definition login_dashboard : Request :=
  get "/auth/login" "redirect_uri=/dashboard" ∅ {[ "redirect_uri" := ["/dashboard"] ]}.

(** A reading of the clock at the Unix time 0. *)
Definition epoch : Z := (unixToInternal * Second)%Z.

(** A callback whose [state] parameter is not the one of its cookie. *)
Definition callback_forged : Request :=
  get "/auth/callback" "" {[ "Cookie" := ["state=" +:+ stateFor "/dashboard"] ]}
      {[ "state" := [stateFor "/elsewhere"]; "code" := ["abc"] ]}.

(** The callback of a login that the identity provider refused. *)
Definition callback_denied : Request :=
  get "/auth/callback" "" {[ "Cookie" := ["state=" +:+ stateFor "/dashboard"] ]}
      {[ "error" := ["access_denied"]; "error_description" := ["denied"];
         "state" := [stateFor "/dashboard"] ]}.

(** Two handlers: one answers 502, one writes a body and never calls
    [WriteHeader]. *)
Definition badGateway : Handler := fun _ =>
  [CallHeaderSet "Content-Type" "text/plain"; CallWriteHeader 502;
   CallWrite "bad gateway"].

Definition hello : Handler := fun _ =>
  [CallHeaderSet "Content-Type" "text/plain"; CallWrite "hello, "; CallWrite "world"].

Definition data : Request := get "/data" "x=1" ∅ ∅.

(** The context that [ServeHTTP] builds for [data]. *)
Definition dataContext : Context := mkContext (Some "/data?x=1") (Some ∅).

(** 22:13:00 UTC on November 14, 2023, and a minute. *)
Definition t0 : Z := (epoch + 1699999980 * Second)%Z.
Definition minute : Z := (60 * Second)%Z.

(** A modifier that refuses every request with the status 403. *)
Definition deny : Modifier := fun req =>
  ([], req, Some (NewStatusError 403 (Some (errorString "forbidden")))).

Definition target : URL := mkURL "https" "" None "api.example" "/api/" false "" "".

Definition upstream : Request -> Result Response := fun _ =>
  Ok (mkResponse 200 {[ "Content-Type" := ["application/json"] ]} "{}").

(** A proxy whose only modifier is [deny]. *)
Definition guarded : proxyServer := mkProxyServer upstream target [deny].

(** A proxy with the modifier of the session server. *)
Definition proxy : proxyServer :=
  mkProxyServer upstream target [ModifyHeader server].

(** What [NewRequest] makes of [signedIn] for [proxy]. *)
Definition outbound : list event * Result Request :=
  Eval vm_compute in NewRequest RefLib.lib map_to_list proxy signedIn.

End Examples.

(* ===================================================================== *)
(** * Part IV, continued: the rest of the package *)
(* ===================================================================== *)

Module More.
Import Go Wx.

(** ** auth_server.go: [UserInfo] *)

Definition StatusUnauthorized : Z := 401.

(** [decode] at any type: [unmarshal] is [json.Unmarshal] at the type of
    the value. *)
Definition decodeInto {A : Type} (lib : Lib)
  (unmarshal : string -> A -> A * option error)
  (encoded : string) (value : A) : A * option error :=
  let l := (String.length encoded mod 4)%nat in
  let encoded :=
    if (0 <? l)%nat then encoded +:+ strings_Repeat "=" (4 - l) else encoded in
  match base64_DecodeString lib encoded with
  | Fail err => (value, Some err)
  | Ok decoded => unmarshal decoded value
  end.

Section UserInfo.
Context (lib : Lib).

(** The claims are a [map[string]interface{}]: [nilClaims] is the nil
    map, [json_Unmarshal_claims] is [json.Unmarshal] into a map and
    [json_Encode_claims] what [json.NewEncoder(w).Encode] writes, or its
    error. *)
Context {Claims : Type} (nilClaims : Claims)
  (json_Unmarshal_claims : string -> Claims -> Claims * option error)
  (json_Encode_claims : Claims -> Result string).

Definition UserInfo (self : authServer) (r : Request) : list event :=
  match Request_Cookie r (authCookieName self) with
  | Fail _ => [WriteHeader StatusUnauthorized; LogDebug "Missing authorization cookie"]
  | Ok cookie =>
      let parts := strings_Split (Cookie_Value cookie) "." in
      if (length parts <? 2)%nat then
        [WriteHeader StatusUnauthorized; LogDebug "Marlformed authorization cookie"]
      else
        match decodeInto lib json_Unmarshal_claims (nth 1 parts "") nilClaims with
        | (_, Some err) => [WriteHeader StatusUnauthorized; LogError err]
        | (claims, None) =>
            match json_Encode_claims claims with
            | Ok json => [Write json]
            | Fail _ => []
            end
        end
  end.

End UserInfo.

(** ** server.go: the pattern of the proxy *)

(** [strings.TrimRight(s, cutset)] for a cutset of one byte. *)
Fixpoint strings_TrimRight (s : string) (c : ascii) : string :=
  match s with
  | EmptyString => EmptyString
  | String x rest =>
      match strings_TrimRight rest c with
      | EmptyString => if Ascii.eqb x c then EmptyString else String x EmptyString
      | rest' => String x rest'
      end
  end.

(** [strings.TrimRight(target.Path, "/") + "/"] of [NewWebServer], as a
    function of [target.Path]. *)
Definition proxyPath (path : string) : string :=
  strings_TrimRight path "/" +:+ "/".

(** ** withoutcache.go, the build with the tag [cache] *)

Section CacheControl.

(** [fmt.Sprintf("%v", d.Seconds())]: the seconds of a duration, a
    [float64], as [%v] prints it. *)
Context (formatSeconds : Z -> string).

(** [cacheControlWriter.WriteHeader], as the calls it makes on the
    [http.ResponseWriter] it wraps. *)
Definition cacheControlWriter_WriteHeader (ttl statusCode : Z) : list writerCall :=
  (if (statusCode =? StatusOK)%Z then
     [CallHeaderSet "Cache-Control" ("max-age=" +:+ formatSeconds ttl +:+ ", private")]
   else [])
  ++ [CallWriteHeader statusCode].

(** The other methods are those of the embedded writer. *)
Definition cacheControlWriter_call (ttl : Z) (call : writerCall) : list writerCall :=
  match call with
  | CallWriteHeader statusCode => cacheControlWriter_WriteHeader ttl statusCode
  | other => [other]
  end.

(** [NewWithCacheControl(logger, ttl, handler)]: the calls that reach
    the writer of the server. *)
Definition NewWithCacheControl (ttl : Z) (handler : Handler) : Handler :=
  fun r => flat_map (cacheControlWriter_call ttl) (handler r).

End CacheControl.

(** The header map of a writer after a list of calls. *)
Fixpoint headerAfterCalls (h : Header) (calls : list writerCall) : Header :=
  match calls with
  | [] => h
  | CallHeaderAdd k v :: rest => headerAfterCalls (Header_Add h k v) rest
  | CallHeaderSet k v :: rest => headerAfterCalls (Header_Set h k v) rest
  | CallHeaderDel k :: rest => headerAfterCalls (Header_Del h k) rest
  | _ :: rest => headerAfterCalls h rest
  end.

(** The status codes of the [WriteHeader] calls of a list, in order. *)
Fixpoint statusCalls (calls : list writerCall) : list Z :=
  match calls with
  | [] => []
  | CallWriteHeader c :: rest => c :: statusCalls rest
  | _ :: rest => statusCalls rest
  end.

Section AssetCache.

(** [fmt.Sprintf("%x", hash.Sum(nil))] after [hash.Write(contents)] on
    [md5.New()]; the [Write] of an md5 hash returns no error. *)
Context (md5hex : string -> string).

(** A file system at the time of a call: [Open] fails, or gives a file
    on which [ioutil.ReadAll] fails or gives the contents. *)
Definition FileSystem : Type := string -> Result (Result string).

(** [assetCache], without its file system, which is an argument of
    [Asset]; the mutex makes a call one step. *)
Definition assetCache : Type := gmap string string.

Definition NewAssetCache : assetCache := ∅.

Definition Asset (fs : FileSystem) (self : assetCache) (asset : string)
  : assetCache * Result string :=
  match self !! asset with
  | Some id => (self, Ok (asset +:+ "?id=" +:+ id))
  | None =>
      match fs asset with
      | Fail err => (self, Fail (fmt_Errorf_w ("open [" +:+ asset +:+ "] : ") err))
      | Ok (Fail err) => (self, Fail (fmt_Errorf_w ("read [" +:+ asset +:+ "] : ") err))
      | Ok (Ok contents) =>
          let id := md5hex contents in
          (<[asset := id]> self, Ok (asset +:+ "?id=" +:+ id))
      end
  end.

End AssetCache.

(** ** The cache layer: vocabulary *)

(** The status a [cacheWriter] holds after a list of calls, from the
    status it held before. *)
Fixpoint lastStatus (calls : list writerCall) (current : Z) : Z :=
  match calls with
  | [] => current
  | CallWriteHeader statusCode :: rest => lastStatus rest statusCode
  | _ :: rest => lastStatus rest current
  end.

(** The context that [ServeHTTP] builds for a request. *)
Definition contextOf (r : Request) : Context :=
  mkContext (Some (URL_String (Request_URL r))) (Some (Request_Header r)).

(** The options of a server, applied in order. *)
Definition applyOptions (opts : list (proxyServer -> proxyServer)) (server : proxyServer)
  : proxyServer :=
  fold_left (fun server opt => opt server) opts server.

(** ** More sample data *)

(** Claims kept as the JSON text they were read from. *)
Definition rawClaims_Unmarshal (data : string) (claims : string) : string * option error :=
  (data, None).

Definition rawClaims_Encode (claims : string) : Result string :=
  Ok (claims +:+ String "010" EmptyString).

(** A request with a session cookie of three dot-separated segments,
    the second being the unpadded base64 of a JSON object. *)
Definition withToken : Request :=
  Examples.get "/auth/userinfo" ""
    {[ "Cookie" := ["auth=Bearer aGVhZGVy.eyJzdWIiOiJ1In0.c2ln"] ]} ∅.

(** A request whose URL has a port that is not a number. *)
Definition badPort : Request :=
  mkRequest "GET" (mkURL "" "" None "example.com:port" "/data" false "" "") ∅ ∅ "".

(** A handler that answers 200, then a body, then 503. *)
Definition lateFailure : Handler := fun _ =>
  [CallWriteHeader 200; CallWrite "partial"; CallWriteHeader 503].

(** A handler that sets its own [Cache-Control] and answers 200. *)
Definition ownCacheControl : Handler := fun _ =>
  [CallHeaderSet "Cache-Control" "no-store"; CallWriteHeader 200; CallWrite "ok"].

(** A file system with one file. *)
Definition oneFile : FileSystem := fun name =>
  if String.eqb name "/app.js" then Ok (Ok "console.log(1)")
  else Fail (errorString "file does not exist").

(** A stand-in for the md5 sum in hexadecimal: the length of the
    contents, in decimal. *)
Definition lengthHex (contents : string) : string := pretty (String.length contents).

(** A request for the URL of [Examples.data] with another method,
    header and body. *)
Definition postData : Request :=
  mkRequest "POST" (mkURL "" "" None "" "/data" false "x=1" "")
    {[ "Authorization" := ["Bearer other"] ]} ∅ "payload".

End More.

(* ===================================================================== *)
(** * Part V: properties *)
(* ===================================================================== *)

Import Go Wx Props.

(** ** Headers and cookies *)

Lemma canonical_Cookie : CanonicalMIMEHeaderKey "Cookie" = "Cookie".
Proof. reflexivity. Qed.

Lemma canonical_Authorization :
  CanonicalMIMEHeaderKey "Authorization" = "Authorization".
Proof. reflexivity. Qed.

Lemma Header_values_Add_same (h : Header) (key v : string) :
  Header_values (Header_Add h key v) (CanonicalMIMEHeaderKey key)
  = Header_values h (CanonicalMIMEHeaderKey key) ++ [v].
Proof. unfold Header_Add, Header_values. by rewrite lookup_insert_eq. Qed.

Lemma Header_values_Add_other (h : Header) (key v k : string) :
  k <> CanonicalMIMEHeaderKey key ->
  Header_values (Header_Add h key v) k = Header_values h k.
Proof.
  intros Hne. unfold Header_Add, Header_values. by rewrite lookup_insert_ne.
Qed.

Lemma Header_Del_lookup (h : Header) (key : string) :
  Header_Del h key !! CanonicalMIMEHeaderKey key = None.
Proof. unfold Header_Del. apply lookup_delete_eq. Qed.

Lemma readCookies_no_header (h : Header) (filter : string) :
  h !! "Cookie" = None -> readCookies h filter = [].
Proof. intros Hnone. unfold readCookies, Header_values. by rewrite Hnone. Qed.

Lemma Request_Cookie_no_header (r : Request) (name : string) :
  Request_Header r !! "Cookie" = None -> Request_Cookie r name = Fail ErrNoCookie.
Proof.
  intros Hnone. unfold Request_Cookie.
  destruct (String.eqb name ""); [done|].
  by rewrite readCookies_no_header.
Qed.

Lemma Request_Cookie_error (r : Request) (name : string) (e : error) :
  Request_Cookie r name = Fail e -> e = ErrNoCookie.
Proof.
  unfold Request_Cookie. destruct (String.eqb name ""); [congruence|].
  destruct (readCookies _ _); congruence.
Qed.

(** ** [ModifyHeader] *)

Lemma ModifyHeader_present (self : authServer) (r : Request) (cookie : Cookie) :
  Request_Cookie r (authCookieName self) = Ok cookie ->
  ModifyHeader self r
  = ([], with_Header r (Header_Del (Header_Add (Request_Header r) "Authorization"
                                       (Cookie_Value cookie)) "Cookie"), None).
Proof. intros Hc. unfold ModifyHeader. by rewrite Hc. Qed.

Lemma ModifyHeader_absent (self : authServer) (r : Request) (e : error) :
  Request_Cookie r (authCookieName self) = Fail e ->
  ModifyHeader self r = ([LogDebug "Missing authorization cookie"], r, None).
Proof. intros Hc. unfold ModifyHeader. by rewrite Hc. Qed.

Lemma ModifyHeader_strips (self : authServer) (r : Request) (cookie : Cookie) :
  Request_Cookie r (authCookieName self) = Ok cookie ->
  Request_Header (modified (ModifyHeader self r)) !! "Cookie" = None.
Proof.
  intros Hc. rewrite (ModifyHeader_present _ _ _ Hc). cbn.
  rewrite <- canonical_Cookie at 2. apply Header_Del_lookup.
Qed.

Lemma ModifyHeader_twice (self : authServer) (r : Request) :
  modified (ModifyHeader self (modified (ModifyHeader self r)))
  = modified (ModifyHeader self r).
Proof.
  destruct (Request_Cookie r (authCookieName self)) as [cookie|e] eqn:Hc.
  - pose proof (ModifyHeader_strips _ _ _ Hc) as Hnone.
    by rewrite (ModifyHeader_absent _ _ _ (Request_Cookie_no_header _ _ Hnone)).
  - rewrite (ModifyHeader_absent _ _ _ Hc). cbn.
    by rewrite (ModifyHeader_absent _ _ _ Hc).
Qed.

(** C9. [ModifyHeader] returns [nil] for every request. When the session
    cookie is present the request leaves it with the cookie's value
    appended to the [Authorization] values and without a [Cookie] header;
    when it is absent the request leaves it unchanged. In the pipeline of
    [NewRequest] the modifiers after it always run. *)
Theorem ModifyHeader_returns_nil (self : authServer) (r : Request) :
  returned (ModifyHeader self r) = None
  /\ match Request_Cookie r (authCookieName self) with
     | Ok cookie =>
         let r' := modified (ModifyHeader self r) in
         Header_values (Request_Header r') "Authorization"
         = Header_values (Request_Header r) "Authorization" ++ [Cookie_Value cookie]
         /\ Request_Header r' !! "Cookie" = None
         /\ (forall k, k <> "Authorization" -> k <> "Cookie" ->
               Request_Header r' !! k = Request_Header r !! k)
     | Fail _ => modified (ModifyHeader self r) = r
     end
  /\ forall rest : list Modifier,
       runModifiers (ModifyHeader self :: rest) r
       = let (log, res) := runModifiers rest (modified (ModifyHeader self r)) in
         (fst (fst (ModifyHeader self r)) ++ log, res).
Proof.
  destruct (Request_Cookie r (authCookieName self)) as [cookie|e] eqn:Hc.
  - rewrite (ModifyHeader_present _ _ _ Hc). cbn -[Header_Add Header_Del].
    repeat split.
    + unfold Header_Del. rewrite canonical_Cookie.
      unfold Header_values at 1. rewrite lookup_delete_ne by done.
      rewrite <- canonical_Authorization at 2 3.
      apply Header_values_Add_same.
    + rewrite <- canonical_Cookie at 2. apply Header_Del_lookup.
    + intros k Ha Hk. unfold Header_Del, Header_Add.
      rewrite canonical_Cookie, canonical_Authorization.
      rewrite lookup_delete_ne by done. by rewrite lookup_insert_ne.
    + intros rest. by rewrite (ModifyHeader_present _ _ _ Hc).
  - rewrite (ModifyHeader_absent _ _ _ Hc). cbn. repeat split.
    intros rest. by rewrite (ModifyHeader_absent _ _ _ Hc).
Qed.

(** C4, as stated, fails: a request without the session cookie keeps its
    [Cookie] header. *)
Lemma ModifyHeader_keeps_Cookie_counterexample :
  Request_Cookie Examples.themed (authCookieName Examples.server) = Fail ErrNoCookie
  /\ Request_Header (modified (ModifyHeader Examples.server Examples.themed)) !! "Cookie"
     = Some ["theme=dark"].
Proof. split; reflexivity. Qed.

(** C4, amended. Applying [ModifyHeader] twice leaves the request that
    applying it once leaves, so the same [Authorization] header; after
    an application the request carries no [Cookie] header when the
    session cookie was present, and is the request it was when the
    session cookie was absent. *)
Theorem ModifyHeader_idempotent (self : authServer) (r : Request) :
  let once := modified (ModifyHeader self r) in
  let twice := modified (ModifyHeader self once) in
  twice = once
  /\ Header_values (Request_Header twice) "Authorization"
     = Header_values (Request_Header once) "Authorization"
  /\ Header_Get (Request_Header twice) "Authorization"
     = Header_Get (Request_Header once) "Authorization"
  /\ match Request_Cookie r (authCookieName self) with
     | Ok _ => Request_Header once !! "Cookie" = None
     | Fail _ => once = r
     end.
Proof.
  cbv zeta. rewrite ModifyHeader_twice. repeat split.
  destruct (Request_Cookie r (authCookieName self)) as [cookie|e] eqn:Hc.
  - by apply (ModifyHeader_strips _ _ cookie).
  - by rewrite (ModifyHeader_absent _ _ _ Hc).
Qed.

Example ModifyHeader_signedIn :
  Request_Header (modified (ModifyHeader Examples.server Examples.signedIn))
  = {[ "Authorization" := ["Bearer token-abc"] ]}.
Proof. reflexivity. Qed.

(** ** The handlers of the session *)

Section AuthServerProps.
Context (lib : Lib) (self : authServer).

Lemma eqb_empty_false (s : string) : s <> "" -> String.eqb s "" = false.
Proof. intros Hne. by apply String.eqb_neq. Qed.

Lemma rejection_status tr :
  rejection tr -> status tr = Some 400%Z /\ cookiesSet tr = [] /\ redirects tr = [].
Proof. intros [err ->]. by repeat split. Qed.

Lemma Callback_error_parameter r :
  FormValue r "error" <> "" -> rejection (Callback lib self r).
Proof.
  intros Hne. unfold Callback, checkError. rewrite (eqb_empty_false _ Hne). cbn.
  by eexists.
Qed.

Lemma Callback_invalid_state r :
  snd (decodeState lib self r) <> None -> rejection (Callback lib self r).
Proof.
  intros Hne. unfold Callback.
  destruct (checkError r); [by eexists|].
  destruct (decodeState lib self r) as [state [err|]]; [by eexists|done].
Qed.

Lemma Callback_unparsed_target r err :
  url_Parse lib (RedirectUri (fst (decodeState lib self r))) = Fail err ->
  rejection (Callback lib self r).
Proof.
  intros Hp. unfold Callback.
  destruct (checkError r); [by eexists|].
  destruct (decodeState lib self r) as [state [e|]]; [by eexists|].
  cbn in Hp. rewrite Hp. by eexists.
Qed.

Lemma Callback_target_with_host r u :
  url_Parse lib (RedirectUri (fst (decodeState lib self r))) = Ok u ->
  URL_Host u <> "" ->
  rejection (Callback lib self r).
Proof.
  intros Hp Hh. unfold Callback.
  destruct (checkError r); [by eexists|].
  destruct (decodeState lib self r) as [state [e|]]; [by eexists|].
  cbn in Hp. rewrite Hp, (eqb_empty_false _ Hh). by eexists.
Qed.

Lemma Callback_failed_exchange r err :
  Config_Exchange lib (authConfig self) (FormValue r "code") = Fail err ->
  rejection (Callback lib self r).
Proof.
  intros Hx. unfold Callback.
  destruct (checkError r); [by eexists|].
  destruct (decodeState lib self r) as [state [e|]]; [by eexists|].
  destruct (url_Parse lib (RedirectUri state)) as [u|e]; [|by eexists].
  destruct (negb (String.eqb (URL_Host u) "")); [by eexists|].
  rewrite Hx. by eexists.
Qed.

Lemma Logout_target_with_host r u :
  url_Parse lib (Logout_target r) = Ok u -> URL_Host u <> "" ->
  rejection (Logout lib self r).
Proof.
  intros Hp Hh. unfold Logout. fold (Logout_target r).
  rewrite Hp, (eqb_empty_false _ Hh). by eexists.
Qed.

(** [decodeState] succeeds exactly on a cookie whose value is the
    [state] parameter and decodes. *)
Lemma decodeState_ok r :
  snd (decodeState lib self r) = None
  <-> exists cookie,
        Request_Cookie r (stateCookieName self) = Ok cookie
        /\ Cookie_Value cookie = FormValue r "state"
        /\ snd (decode lib (Cookie_Value cookie) (mkState "" 0)) = None.
Proof.
  unfold decodeState.
  destruct (Request_Cookie r (stateCookieName self)) as [cookie|e]; cbn.
  - destruct (String.eqb (Cookie_Value cookie) (FormValue r "state")) eqn:Heq; cbn.
    + apply String.eqb_eq in Heq. split.
      * intros Hd. by exists cookie.
      * by intros [c (Hc & _ & Hd)]; injection Hc as <-.
    + apply String.eqb_neq in Heq. split; [done|].
      by intros [c (Hc & Hv & _)]; injection Hc as <-.
  - split; [done|]. by intros [c (Hc & _)].
Qed.


Lemma Callback_success r state u token :
  FormValue r "error" = "" ->
  decodeState lib self r = (state, None) ->
  url_Parse lib (RedirectUri state) = Ok u ->
  URL_Host u = "" ->
  Config_Exchange lib (authConfig self) (FormValue r "code") = Ok token ->
  Callback lib self r
  = [SetCookie (mkCookie (authCookieName self)
                  (Token_TokenType token +:+ " " +:+ Token_AccessToken token)
                  "/" (Token_Expiry token) 0 true);
     SetCookie (mkCookie (stateCookieName self) "" "/" None (-1) false);
     Redirect (URL_String u) StatusTemporaryRedirect].
Proof.
  intros He Hs Hp Hh Hx. unfold Callback, checkError.
  by rewrite He, Hs, Hp, Hh, Hx.
Qed.

Lemma Callback_fails_rejection r :
  Callback_step_fails lib self r -> rejection (Callback lib self r).
Proof.
  intros [He|[Hs|[[err Hp]|[[u [Hp Hh]]|[err Hx]]]]].
  - by apply Callback_error_parameter.
  - by apply Callback_invalid_state.
  - by apply (Callback_unparsed_target _ err).
  - by apply (Callback_target_with_host _ u).
  - by apply (Callback_failed_exchange _ err).
Qed.

Lemma Callback_cookies_only_on_success r :
  cookiesSet (Callback lib self r) <> [] -> ~ Callback_step_fails lib self r.
Proof.
  intros Hc Hf. by destruct (rejection_status _ (Callback_fails_rejection r Hf)) as (_ & ? & _).
Qed.

(** C3. When a step of [Callback] fails ([error] parameter, state
    decoding or comparison, redirect target invalid or with a host,
    exchange of the code), [Callback] answers 400, logs the error, and
    makes no other call: it sets no cookie and redirects nowhere. The
    cookies are set only in the branch where no step failed. *)
Theorem Callback_atomic_on_failure (r : Request) :
  Callback_step_fails lib self r ->
  rejection (Callback lib self r)
  /\ status (Callback lib self r) = Some 400%Z
  /\ cookiesSet (Callback lib self r) = []
  /\ redirects (Callback lib self r) = []
  /\ exists err, logged (Callback lib self r) = [err].
Proof.
  intros Hf. pose proof (Callback_fails_rejection r Hf) as Hr.
  split; [done|]. destruct (rejection_status _ Hr) as (Hs & Hc & Hd).
  repeat split; try done. destruct Hr as [err ->]. by exists err.
Qed.

(** A login followed by a callback that brings the cookie of the login
    back: the validation passes exactly when the [state] parameter is the
    state that the login issued, and this state decodes. *)
Lemma Login_then_Callback now now' r0 state r cookie :
  encodeState lib now r0 = Ok state ->
  Request_Cookie r (stateCookieName self) = Ok cookie ->
  Cookie_Value cookie = state ->
  cookiesSet (Login lib self now now' r0)
  = [mkCookie (stateCookieName self) state "/" (Some (now' + Hour)%Z) 0 true]
  /\ (snd (decodeState lib self r) = None
      <-> FormValue r "state" = state
          /\ snd (decode lib state (mkState "" 0)) = None).
Proof.
  intros Hlogin Hc Hv. split.
  - unfold Login. by rewrite Hlogin.
  - rewrite decodeState_ok. split.
    + intros [c (Hc' & Hs & Hd)]. rewrite Hc in Hc'. injection Hc' as <-.
      rewrite Hv in Hs, Hd. by split.
    + intros [Hs Hd]. exists cookie. rewrite Hv. by repeat split.
Qed.


(** C1, amended. A redirect target whose parsed URL has a host is
    answered with 400, without a redirection and without a cookie, by
    [Callback] when it is the target of the decoded state and by
    [Logout] when it is the target of the request. [Login] does not look
    at the target: when the state encodes it stores the target in the
    state cookie and redirects to the identity provider. *)
Theorem open_redirect_guard (r : Request) (u : URL) :
  URL_Host u <> "" ->
  (url_Parse lib (RedirectUri (fst (decodeState lib self r))) = Ok u ->
   status (Callback lib self r) = Some 400%Z
   /\ cookiesSet (Callback lib self r) = [] /\ redirects (Callback lib self r) = [])
  /\ (url_Parse lib (Logout_target r) = Ok u ->
      status (Logout lib self r) = Some 400%Z
      /\ cookiesSet (Logout lib self r) = [] /\ redirects (Logout lib self r) = [])
  /\ (forall now now' state, encodeState lib now r = Ok state ->
      Login lib self now now' r
      = [SetCookie (mkCookie (stateCookieName self) state "/" (Some (now' + Hour)%Z) 0 true);
         Redirect (Config_AuthCodeURL lib (authConfig self) state [AccessTypeOffline])
                  StatusTemporaryRedirect]).
Proof.
  intros Hh. split; [|split].
  - intros Hp. by apply rejection_status, (Callback_target_with_host _ u).
  - intros Hp. by apply rejection_status, (Logout_target_with_host _ u).
  - intros now now' state Hs. unfold Login. by rewrite Hs.
Qed.

End AuthServerProps.

(** C1, as stated, fails for [Login]: the target [http://evil.example/]
    has the host [evil.example], and [Login] answers 307 and stores the
    state cookie. *)
Lemma Login_open_redirect_counterexample :
  (exists u, url_Parse RefLib.lib (FormValue Examples.login_evil "redirect_uri") = Ok u
             /\ URL_Host u = "evil.example")
  /\ status (Login RefLib.lib Examples.server Examples.epoch Examples.epoch
               Examples.login_evil) = Some 307%Z
  /\ cookiesSet (Login RefLib.lib Examples.server Examples.epoch Examples.epoch
                   Examples.login_evil)
     = [mkCookie "state" (Examples.stateFor Examples.evil) "/"
          (Some (Examples.epoch + Hour)%Z) 0 true].
Proof.
  split; [|split].
  - eexists. split; vm_compute; reflexivity.
  - vm_compute. reflexivity.
  - vm_compute. reflexivity.
Qed.

Lemma open_redirect_guard_witness :
  status (Callback RefLib.lib Examples.server (Examples.callback Examples.evil "abc"))
  = Some 400%Z
  /\ status (Logout RefLib.lib Examples.server Examples.logout_evil) = Some 400%Z.
Proof.
  pose (u := mkURL "http" "" None "evil.example" "/" false "" "").
  assert (URL_Host u <> "") as Hh by (vm_compute; discriminate).
  split.
  - apply (open_redirect_guard RefLib.lib Examples.server
             (Examples.callback Examples.evil "abc") u Hh).
    vm_compute. reflexivity.
  - apply (open_redirect_guard RefLib.lib Examples.server Examples.logout_evil u Hh).
    vm_compute. reflexivity.
Defined.

Lemma Callback_atomic_on_failure_witness :
  rejection (Callback RefLib.lib Examples.server Examples.callback_denied)
  /\ status (Callback RefLib.lib Examples.server Examples.callback_denied) = Some 400%Z
  /\ cookiesSet (Callback RefLib.lib Examples.server Examples.callback_denied) = []
  /\ redirects (Callback RefLib.lib Examples.server Examples.callback_denied) = []
  /\ exists err, logged (Callback RefLib.lib Examples.server Examples.callback_denied) = [err].
Proof.
  apply (Callback_atomic_on_failure RefLib.lib Examples.server Examples.callback_denied).
  left. vm_compute. discriminate.
Defined.

(** The session of the end-to-end scenarios, on the reference instance. *)
Example Login_dashboard :
  Login RefLib.lib Examples.server Examples.epoch Examples.epoch Examples.login_dashboard
  = [SetCookie (mkCookie "state" (Examples.stateFor "/dashboard") "/"
                  (Some (Examples.epoch + Hour)%Z) 0 true);
     Redirect ("https://idp.example/auth?access_type=offline&client_id=wx"
               +:+ "&redirect_uri=https%3A%2F%2Fwx.example%2Fauth%2Fcallback"
               +:+ "&response_type=code&scope=openid&state="
               +:+ RefLib.QueryEscape (Examples.stateFor "/dashboard")) 307].
Proof. vm_compute. reflexivity. Qed.

Example Callback_dashboard :
  Callback RefLib.lib Examples.server (Examples.callback "/dashboard" "abc")
  = [SetCookie (mkCookie "auth" "Bearer token-abc" "/" None 0 true);
     SetCookie (mkCookie "state" "" "/" None (-1) false);
     Redirect "/dashboard" 307].
Proof. vm_compute. reflexivity. Qed.

Example Callback_forged :
  Callback RefLib.lib Examples.server Examples.callback_forged
  = [WriteHeader 400; LogError (errorString "Invalid state")].
Proof. vm_compute. reflexivity. Qed.

Example Callback_denied :
  Callback RefLib.lib Examples.server Examples.callback_denied
  = [WriteHeader 400; LogError (errorString "access_denied : denied")].
Proof. vm_compute. reflexivity. Qed.

Example Callback_evil :
  Callback RefLib.lib Examples.server (Examples.callback Examples.evil "abc")
  = [WriteHeader 400; LogError (errorString "Invalid redirect")].
Proof. vm_compute. reflexivity. Qed.

Example Logout_evil :
  Logout RefLib.lib Examples.server Examples.logout_evil
  = [WriteHeader 400; LogError (errorString "Invalid redirect")].
Proof. vm_compute. reflexivity. Qed.

(** ** The proxy *)

Lemma headerAfter_app (w : Header) (a b : list event) :
  headerAfter w (a ++ b) = headerAfter (headerAfter w a) b.
Proof.
  revert w. induction a as [|e a IH]; intros w; [done|].
  destruct e; cbn; apply IH.
Qed.

Lemma headerAfter_adds (w : Header) (h : string) (vs : list string) (k : string) :
  Header_values (headerAfter w (map (HeaderAdd h) vs)) k
  = if decide (k = CanonicalMIMEHeaderKey h)
    then Header_values w k ++ vs else Header_values w k.
Proof.
  revert w. induction vs as [|v vs IH]; intros w; cbn.
  - case_decide; [by rewrite app_nil_r|done].
  - rewrite IH. case_decide as Hk.
    + subst k. rewrite Header_values_Add_same. by rewrite <- app_assoc.
    + by rewrite Header_values_Add_other.
Qed.

Lemma headerAfter_keeps (w : Header) (tr : list event) (k v : string) :
  v ∈ Header_values w k -> v ∈ Header_values (headerAfter w tr) k.
Proof.
  revert w. induction tr as [|e tr IH]; intros w Hv; [done|].
  destruct e; cbn; try by apply IH.
  apply IH. destruct (decide (k = CanonicalMIMEHeaderKey key)) as [->|Hne].
  - rewrite Header_values_Add_same. apply elem_of_app. by left.
  - by rewrite Header_values_Add_other.
Qed.

Lemma headerAfter_elem (w : Header) (tr : list event) (h v : string) :
  HeaderAdd h v ∈ tr ->
  v ∈ Header_values (headerAfter w tr) (CanonicalMIMEHeaderKey h).
Proof.
  revert w. induction tr as [|e tr IH]; intros w Hin.
  - by apply elem_of_nil in Hin.
  - apply elem_of_cons in Hin as [<-|Hin].
    + cbn. apply headerAfter_keeps. rewrite Header_values_Add_same.
      apply elem_of_app. right. by left.
    + destruct e; cbn; by apply IH.
Qed.

(** The header map after the copy loop over a list of entries with
    distinct canonical names: every list of values is appended under its
    name. *)
Lemma headerAfter_copies (l : list (string * list string)) (w : Header) (k : string) :
  NoDup l.*1 ->
  (forall hv, hv ∈ l -> CanonicalMIMEHeaderKey hv.1 = hv.1) ->
  Header_values (headerAfter w (flat_map (fun hv => map (HeaderAdd hv.1) hv.2) l)) k
  = Header_values w k ++ Header_values (list_to_map l) k.
Proof.
  revert w. induction l as [|[h vs] l IH]; intros w Hnd Hcanon; cbn.
  - unfold Header_values at 3. rewrite lookup_empty. cbn. by rewrite app_nil_r.
  - apply NoDup_cons in Hnd as [Hnotin Hnd].
    rewrite headerAfter_app, IH; [|done|by intros hv Hin; apply Hcanon; right].
    rewrite headerAfter_adds.
    pose proof (Hcanon (h, vs) ltac:(left)) as Hh. cbn in Hh. rewrite Hh.
    unfold Header_values at 5. case_decide as Hk.
    + subst k. rewrite lookup_insert_eq. cbn.
      unfold Header_values at 2.
      rewrite (proj1 (not_elem_of_list_to_map l h) Hnotin). cbn.
      by rewrite app_nil_r.
    + by rewrite lookup_insert_ne.
Qed.

Lemma status_after_adds (adds rest : list event) :
  (forall e, e ∈ adds -> exists h v, e = HeaderAdd h v) ->
  status (adds ++ rest) = status rest.
Proof.
  induction adds as [|e adds IH]; intros Hadds; [done|].
  destruct (Hadds e ltac:(left)) as (h & v & ->). cbn.
  apply IH. intros e He. apply Hadds. by right.
Qed.

Section ProxyServerProps.
Context (lib : Lib) (range : Header -> list (string * list string)).

Lemma Serve_NewRequest_fails self r log err :
  NewRequest lib range self r = (log, Fail err) ->
  Serve lib range self r
  = log ++ [ErrorReply (error_Error err) StatusInternalServerError;
            LogErrorf "new request : " err].
Proof. intros Hn. unfold Serve. by rewrite Hn. Qed.

(** In proxy_server.go the failure of the upstream call is answered
    with the status of a [*statusError] and with 500 otherwise. *)
Lemma Serve_Do_fails self r log req err :
  NewRequest lib range self r = (log, Ok req) ->
  Client_Do self req = Fail err ->
  Serve lib range self r
  = log ++ [ErrorReply (error_Error err)
              (match err with statusError code _ => code | _ => StatusInternalServerError end);
            LogErrorf "client do : " err].
Proof. intros Hn Hd. unfold Serve. rewrite Hn, Hd. by destruct err. Qed.

(** A failing modifier reaches [Serve] wrapped by [fmt.Errorf]. *)
Lemma runModifiers_first_fails (m : Modifier) (rest : list Modifier) req log req' err :
  m req = (log, req', Some err) ->
  runModifiers (m :: rest) req = (log, Fail (fmt_Errorf_w "modifier: " err)).
Proof. intros Hm. cbn. by rewrite Hm. Qed.

Lemma copyHeaderEvents_elem (src : Header) (h v : string) :
  (forall m, range m ≡ₚ map_to_list m) ->
  HeaderAdd h v ∈ copyHeaderEvents range src
  <-> exists vs, src !! h = Some vs /\ v ∈ vs.
Proof.
  intros Hrange. unfold copyHeaderEvents.
  rewrite list_elem_of_In, in_flat_map. split.
  - intros [[h' vs] [Hin Hv]]. cbn in Hv. apply in_map_iff in Hv as [v' [Heq Hv]].
    injection Heq as -> ->. exists vs. split; [|by apply list_elem_of_In].
    apply elem_of_map_to_list. rewrite <- (Hrange src). by apply list_elem_of_In.
  - intros [vs [Hl Hv]]. exists (h, vs). split.
    + apply list_elem_of_In. rewrite (Hrange src). by apply elem_of_map_to_list.
    + cbn. apply in_map. by apply list_elem_of_In.
Qed.

Lemma copyHeaderEvents_only_adds (src : Header) (e : event) :
  e ∈ copyHeaderEvents range src -> exists h v, e = HeaderAdd h v.
Proof.
  unfold copyHeaderEvents. rewrite list_elem_of_In, in_flat_map.
  intros [[h vs] [_ Hv]]. cbn in Hv. apply in_map_iff in Hv as [v [<- _]]. eauto.
Qed.

Lemma copyHeaderEvents_header (src w : Header) (k : string) :
  (forall m, range m ≡ₚ map_to_list m) ->
  (forall h, is_Some (src !! h) -> CanonicalMIMEHeaderKey h = h) ->
  Header_values (headerAfter w (copyHeaderEvents range src)) k
  = Header_values w k ++ Header_values src k.
Proof.
  intros Hrange Hcanon. unfold copyHeaderEvents.
  rewrite headerAfter_copies.
  - rewrite (list_to_map_proper (range src) (map_to_list src)).
    + by rewrite list_to_map_to_list.
    + rewrite (Hrange src). apply NoDup_fst_map_to_list.
    + apply Hrange.
  - rewrite (Hrange src). apply NoDup_fst_map_to_list.
  - intros [h vs] Hin. cbn. apply Hcanon. exists vs.
    apply elem_of_map_to_list. by rewrite <- (Hrange src).
Qed.

(** C6. When the upstream answers, [Serve] makes, after the calls of
    [NewRequest] on the logger, one [w.Header().Add(h, v)] for every
    name [h] and value [v] of the upstream header and no other call,
    then [w.WriteHeader] with the upstream status, then the relay of the
    body: [Stream] when the upstream [Content-Type] is
    ["text/event-stream"], one [io.Copy] otherwise. After the copies
    every value is in [w.Header()] under the canonical form of its name,
    and, the names being canonical as net/http reads them, every name
    has its list of values appended. *)
Theorem Serve_relays_response self r log req resp :
  (forall m, range m ≡ₚ map_to_list m) ->
  NewRequest lib range self r = (log, Ok req) ->
  Client_Do self req = Ok resp ->
  let copies := copyHeaderEvents range (Response_Header resp) in
  Serve lib range self r
  = log ++ copies ++ [WriteHeader (Response_StatusCode resp)] ++ relay resp ++ [BodyClose]
  /\ copies ≡ₚ flat_map (fun hv => map (HeaderAdd hv.1) hv.2)
                (map_to_list (Response_Header resp))
  /\ (forall h v, HeaderAdd h v ∈ copies
                  <-> exists vs, Response_Header resp !! h = Some vs /\ v ∈ vs)
  /\ (forall e, e ∈ copies -> exists h v, e = HeaderAdd h v)
  /\ status (copies ++ [WriteHeader (Response_StatusCode resp)] ++ relay resp ++ [BodyClose])
     = Some (Response_StatusCode resp)
  /\ (forall w h vs v, Response_Header resp !! h = Some vs -> v ∈ vs ->
        v ∈ Header_values (headerAfter w copies) (CanonicalMIMEHeaderKey h))
  /\ ((forall h, is_Some (Response_Header resp !! h) -> CanonicalMIMEHeaderKey h = h) ->
      forall w k, Header_values (headerAfter w copies) k
                  = Header_values w k ++ Header_values (Response_Header resp) k)
  /\ relay resp
     = if decide (Header_Get (Response_Header resp) "Content-Type" = "text/event-stream")
       then [StreamRelay (Response_Body resp); LogInfo ["streaming done"]]
       else [IoCopy (Response_Body resp)].
Proof.
  intros Hrange Hn Hd copies. repeat split.
  - unfold Serve. by rewrite Hn, Hd.
  - unfold copies, copyHeaderEvents. by rewrite (Hrange (Response_Header resp)).
  - by apply copyHeaderEvents_elem.
  - by apply copyHeaderEvents_elem.
  - apply copyHeaderEvents_only_adds.
  - rewrite status_after_adds; [done|]. apply copyHeaderEvents_only_adds.
  - intros w h vs v Hl Hv. apply headerAfter_elem.
    apply copyHeaderEvents_elem; [done|]. by exists vs.
  - intros Hcanon w k. by apply copyHeaderEvents_header.
  - unfold relay. case_decide as Hct.
    + by rewrite Hct.
    + by rewrite (proj2 (String.eqb_neq _ _) Hct).
Qed.

End ProxyServerProps.

Lemma Serve_relays_response_witness :
  Serve RefLib.lib map_to_list Examples.proxy Examples.signedIn
  = [LogInfo ["<<< "; "/api/items"]; LogInfo [">>> "; "https://api.example/api/items"];
     HeaderAdd "Content-Type" "application/json"; WriteHeader 200; IoCopy "{}";
     BodyClose].
Proof.
  destruct Examples.outbound as [log [req|e]] eqn:Ho; [|discriminate Ho].
  destruct (Serve_relays_response RefLib.lib map_to_list Examples.proxy
              Examples.signedIn log req
              (mkResponse 200 {[ "Content-Type" := ["application/json"] ]} "{}"))
    as [Hserve _].
  - intros m. reflexivity.
  - injection Ho as <- <-. vm_compute. reflexivity.
  - reflexivity.
  - rewrite Hserve. injection Ho as <- <-. vm_compute. reflexivity.
Defined.

(** *** Failures of the proxy *)

(** The failure of a modifier is answered with 500 whatever the error
    is: a [*statusError] too, which [NewRequest] has wrapped. *)
Lemma Serve_modifier_fails (lib : Lib) range self r req0 m rest log req' err :
  http_NewRequest lib (Request_Method r)
    (URL_String (URL_ResolveReference lib (Target self) (Request_URL r)))
    (Request_Body r) = Ok req0 ->
  Modifiers self = m :: rest ->
  m (with_Header req0 (copyHeader range (Request_Header r) (Request_Header req0)))
  = (log, req', Some err) ->
  Serve lib range self r
  = LogInfo ["<<< "; URL_String (Request_URL r)] :: log
    ++ [ErrorReply ("modifier: " +:+ error_Error err) 500;
        LogErrorf "new request : " (fmt_Errorf_w "modifier: " err)].
Proof.
  intros Hreq Hms Hm. unfold Serve, NewRequest.
  rewrite Hreq, Hms. cbn. by rewrite Hm.
Qed.

(** C5: the code at the failing input. The modifier [deny] returns
    [NewStatusError(403, ...)]; [Serve] of proxy_server.go answers 500,
    and logs the error, where [Serve] of the earlier and of the later
    revision answer 403. *)
Theorem Serve_modifier_statusError_replies_500 :
  Serve RefLib.lib map_to_list Examples.guarded Examples.themed
  = [LogInfo ["<<< "; "/api/items"];
     ErrorReply "modifier: status 403: err forbidden" 500;
     LogErrorf "new request : "
       (wrapError "modifier: status 403: err forbidden"
          (statusError 403 (Some (errorString "forbidden"))))]
  /\ status (Serve RefLib.lib map_to_list Examples.guarded Examples.themed) = Some 500%Z
  /\ errors_As_statusError
       (wrapError "modifier: status 403: err forbidden"
          (statusError 403 (Some (errorString "forbidden"))))
     = Some (403%Z, Some (errorString "forbidden"))
  /\ status (Serve_Proxy RefLib.lib map_to_list Examples.guarded Examples.themed)
     = Some 403%Z
  /\ status (Serve_part_001 RefLib.lib map_to_list Examples.guarded Examples.themed)
     = Some 403%Z.
Proof. repeat split; vm_compute; reflexivity. Qed.

(** The later revision answers every failure, of a modifier or of the
    upstream, with the status of the [*statusError] on its chain. *)
Lemma handleError_status (err : error) :
  status (handleError err)
  = Some (match errors_As_statusError err with
          | Some (code, _) => code
          | None => 500%Z
          end).
Proof. unfold handleError. by destruct (errors_As_statusError err) as [[code inner]|]. Qed.

(** ** The cache layer *)

(** *** The key *)

Lemma append_cons (x : ascii) (a b : string) : String x a +:+ b = String x (a +:+ b).
Proof. reflexivity. Qed.

Lemma append_nil_l (a : string) : "" +:+ a = a.
Proof. reflexivity. Qed.

Lemma append_assoc (a b c : string) : (a +:+ b) +:+ c = a +:+ (b +:+ c).
Proof.
  induction a as [|x a IH]; [done|]. rewrite !append_cons. by f_equal.
Qed.

Lemma append_nil_r (a : string) : a +:+ "" = a.
Proof. induction a as [|x a IH]; [done|]. rewrite append_cons. by f_equal. Qed.

Lemma append_length (a b : string) :
  String.length (a +:+ b) = (String.length a + String.length b)%nat.
Proof.
  induction a as [|x a IH]; [done|]. rewrite append_cons. cbn. by rewrite IH.
Qed.

Lemma append_inj_r (a b c : string) : a +:+ c = b +:+ c -> a = b.
Proof.
  intros Heq.
  assert (String.length a = String.length b) as Hlen.
  { apply (f_equal String.length) in Heq. rewrite !append_length in Heq. lia. }
  revert b Heq Hlen. induction a as [|x a IH]; intros [|y b] Heq Hlen; cbn in Hlen;
    try done.
  rewrite !append_cons in Heq. injection Heq as -> Heq. f_equal. apply IH; [done|lia].
Qed.

Lemma containsByte_app (c : ascii) (a b : string) :
  containsByte c (a +:+ b) = containsByte c a || containsByte c b.
Proof.
  induction a as [|x a IH]; [done|]. rewrite append_cons. cbn.
  by rewrite IH, orb_assoc.
Qed.






Section CacheKey.
Context (lib : Lib).



End CacheKey.









(** *** The load *)

Lemma calls_Sink (calls : list writerCall) (c : cacheWriter) :
  cw_Sink (fold_left cacheWriter_call calls c) = cw_Sink c.
Proof.
  revert c. induction calls as [|call calls IH]; intros c; [done|].
  cbn. rewrite IH. by destruct call.
Qed.

Lemma calls_bytes (calls : list writerCall) (c : cacheWriter) :
  cw_bytes (fold_left cacheWriter_call calls c) = cw_bytes c +:+ written calls.
Proof.
  revert c. induction calls as [|call calls IH]; intros c.
  - cbn. by rewrite append_nil_r.
  - cbn [fold_left]. rewrite IH. destruct call; cbn; try done.
    by rewrite append_assoc.
Qed.

Lemma calls_statusCode (calls : list writerCall) (c : cacheWriter) :
  noWriteHeader calls = true ->
  cw_statusCode (fold_left cacheWriter_call calls c) = cw_statusCode c.
Proof.
  revert c. induction calls as [|call calls IH]; intros c Hn; [done|].
  cbn [fold_left]. destruct call; cbn in Hn; try done; by rewrite IH.
Qed.

Lemma WriteCache_error (c : cacheWriter) :
  (400 <= cw_statusCode c)%Z ->
  WriteCache c = (cw_Sink c, Some (HttpError (cw_statusCode c))).
Proof.
  intros Hs. unfold WriteCache.
  destruct (Z.geb_spec (cw_statusCode c) 400); [done|lia].
Qed.

Lemma WriteCache_stores (c : cacheWriter) :
  (cw_statusCode c < 400)%Z -> WriteCache c = (Some (cw_bytes c), None).
Proof.
  intros Hs. unfold WriteCache.
  destruct (Z.geb_spec (cw_statusCode c) 400); [lia|done].
Qed.

Section CacheProps.
Context (lib : Lib) (handler : Handler).

Lemma Get_error ctx key dest req :
  createRequest lib ctx = Ok req ->
  (400 <= cw_statusCode (ServeHTTP_on handler (NewCacheWriter dest) req))%Z ->
  cacheGetter_Get lib handler ctx key dest
  = (dest, Some (fmt_Errorf_w ("write cache [" +:+ key +:+ "] : ")
                   (HttpError (cw_statusCode
                                 (ServeHTTP_on handler (NewCacheWriter dest) req))))).
Proof.
  intros Hreq Hs. unfold cacheGetter_Get. rewrite Hreq, (WriteCache_error _ Hs).
  unfold ServeHTTP_on. by rewrite calls_Sink.
Qed.

Lemma Get_stores ctx key dest req :
  createRequest lib ctx = Ok req ->
  (cw_statusCode (ServeHTTP_on handler (NewCacheWriter dest) req) < 400)%Z ->
  cacheGetter_Get lib handler ctx key dest
  = (Some (cw_bytes (ServeHTTP_on handler (NewCacheWriter dest) req)), None).
Proof.
  intros Hreq Hs. unfold cacheGetter_Get. by rewrite Hreq, (WriteCache_stores _ Hs).
Qed.

(** What [cacheGetter.Get] answers without an error is what the handler
    wrote, for a request that it answered with a status below 400. *)
Lemma Get_nil ctx key dest dest' :
  cacheGetter_Get lib handler ctx key dest = (dest', None) ->
  exists req,
    createRequest lib ctx = Ok req
    /\ (cw_statusCode (ServeHTTP_on handler (NewCacheWriter dest) req) < 400)%Z
    /\ dest' = Some (cw_bytes (ServeHTTP_on handler (NewCacheWriter dest) req)).
Proof.
  unfold cacheGetter_Get.
  destruct (createRequest lib ctx) as [req|e]; [|done].
  intros Hg. exists req. split; [done|].
  destruct (Z.lt_ge_cases (cw_statusCode (ServeHTTP_on handler (NewCacheWriter dest) req)) 400)
    as [Hlt|Hge].
  - rewrite (WriteCache_stores _ Hlt) in Hg. by injection Hg as <-.
  - by rewrite (WriteCache_error _ Hge) in Hg.
Qed.

(** Every entry of a reachable group was written by the handler with a
    status below 400. *)
Lemma reachable_entries g :
  reachable lib handler g ->
  forall k v, mainCache g !! k = Some v ->
    exists ctx req dest,
      createRequest lib ctx = Ok req
      /\ (cw_statusCode (ServeHTTP_on handler (NewCacheWriter dest) req) < 400)%Z
      /\ v = cw_bytes (ServeHTTP_on handler (NewCacheWriter dest) req).
Proof.
  induction 1 as [|g ctx key dest Hg IH]; intros k v Hk.
  - unfold NewGroup in Hk. cbn [mainCache] in Hk. by rewrite lookup_empty in Hk.
  - unfold NewGroupCache_Get, Group_Get in Hk.
    destruct (mainCache g !! key) as [value|] eqn:Hkey;
      [cbn [fst snd mainCache] in Hk; by apply (IH k v)|].
    destruct (cacheGetter_Get lib handler ctx key dest) as [dest' [err|]] eqn:Hget;
      cbn [fst snd mainCache] in Hk; [by apply (IH k v)|].
    destruct (decide (key = k)) as [->|Hne].
    + rewrite lookup_insert_eq in Hk. injection Hk as <-.
      apply Get_nil in Hget as (req & Hreq & Hs & ->).
      by exists ctx, req, dest.
    + rewrite lookup_insert_ne in Hk by done. by apply (IH k v).
Qed.

(** The reply of [ServeHTTP] to a load that the handler answered with a
    status of 400 or more carries this status. *)
Lemma ServeHTTP_load_error ttl g now r req :
  let url := URL_String (Request_URL r) in
  createRequest lib (mkContext (Some url) (Some (Request_Header r))) = Ok req ->
  mainCache g !! cacheKey lib now ttl url = None ->
  (400 <= cw_statusCode (ServeHTTP_on handler (NewCacheWriter None) req))%Z ->
  status (snd (proxyCache_ServeHTTP lib handler ttl g now r))
  = Some (cw_statusCode (ServeHTTP_on handler (NewCacheWriter None) req))
  /\ mainCache (fst (proxyCache_ServeHTTP lib handler ttl g now r)) = mainCache g.
Proof.
  intros url Hreq Hmiss Hs.
  unfold proxyCache_ServeHTTP, NewGroupCache_Get, Group_Get. fold url.
  by rewrite Hmiss, (Get_error _ _ _ _ Hreq Hs).
Qed.

(** C8. A load that the handler answers with a status of 400 or more
    returns an error that carries this status, leaves the sink as it
    was and puts nothing in the cache, so that a later [Get] of the same
    key runs the getter again and returns what this new run returns. A
    load answered with a status below 400 stores the bytes the handler
    wrote, in the sink and in the cache. No entry of the cache comes
    from a status of 400 or more. *)
Theorem cache_load_by_status g ctx key dest req :
  createRequest lib ctx = Ok req ->
  mainCache g !! key = None ->
  let writer := ServeHTTP_on handler (NewCacheWriter dest) req in
  let result := NewGroupCache_Get lib handler g ctx key dest in
  let g' := fst (fst result) in
  ((400 <= cw_statusCode writer)%Z ->
     (exists err, cacheGetter_Get lib handler ctx key dest = (dest, Some err)
                  /\ errors_As_HttpError err = Some (cw_statusCode writer))
     /\ (exists err, result = (g', dest, Some err)
                     /\ errors_As_HttpError err = Some (cw_statusCode writer))
     /\ mainCache g' = mainCache g
     /\ forall ctx' dest',
          let later := NewGroupCache_Get lib handler g' ctx' key dest' in
          loads (fst (fst later)) = S (loads g')
          /\ snd later = snd (cacheGetter_Get lib handler ctx' key dest'))
  /\ ((cw_statusCode writer < 400)%Z ->
        cacheGetter_Get lib handler ctx key dest = (Some (cw_bytes writer), None)
        /\ result = (g', Some (cw_bytes writer), None)
        /\ mainCache g' = <[key := cw_bytes writer]> (mainCache g))
  /\ (forall g0, reachable lib handler g0 ->
        forall k v, mainCache g0 !! k = Some v ->
          exists ctx0 req0 dest0,
            createRequest lib ctx0 = Ok req0
            /\ (cw_statusCode (ServeHTTP_on handler (NewCacheWriter dest0) req0) < 400)%Z
            /\ v = cw_bytes (ServeHTTP_on handler (NewCacheWriter dest0) req0)).
Proof.
  intros Hreq Hmiss writer result g'.
  refine (conj _ (conj _ _)).
  - intros Hs.
    pose proof (Get_error ctx key dest req Hreq Hs) as Hget.
    assert (result
            = (mkGroup (mainCache g) (S (Stats_Gets g)) (Stats_CacheHits g)
                 (Stats_LocalLoads g) (S (Stats_LocalLoadErrs g)),
               dest,
               Some (fmt_Errorf_w ("write cache [" +:+ key +:+ "] : ")
                       (HttpError (cw_statusCode writer))))) as Hres.
    { unfold result, NewGroupCache_Get, Group_Get. by rewrite Hmiss, Hget. }
    refine (conj _ (conj _ (conj _ _))).
    + eexists. split; [exact Hget|done].
    + exists (fmt_Errorf_w ("write cache [" +:+ key +:+ "] : ")
                (HttpError (cw_statusCode writer))).
      split; [unfold g'; by rewrite Hres|done].
    + unfold g'. by rewrite Hres.
    + intros ctx' dest' later.
      assert (mainCache g' !! key = None) as Hmiss'
        by (unfold g'; by rewrite Hres).
      unfold later, NewGroupCache_Get, Group_Get. rewrite Hmiss'.
      destruct (cacheGetter_Get lib handler ctx' key dest') as [d [e|]] eqn:Hlater;
        cbn; unfold loads; cbn; split; try done; lia.
  - intros Hs.
    pose proof (Get_stores ctx key dest req Hreq Hs) as Hget.
    assert (result
            = (mkGroup (<[key := cw_bytes writer]> (mainCache g)) (S (Stats_Gets g))
                 (Stats_CacheHits g) (S (Stats_LocalLoads g)) (Stats_LocalLoadErrs g),
               Some (cw_bytes writer), None)) as Hres.
    { unfold result, NewGroupCache_Get, Group_Get. by rewrite Hmiss, Hget. }
    refine (conj Hget (conj _ _)); unfold g'; by rewrite Hres.
  - apply reachable_entries.
Qed.

(** C10. A handler that writes a body and never calls [WriteHeader]
    leaves the status of the [cacheWriter] at its zero value 0, which is
    below 400: the body is stored, in the sink and in the cache. *)
Theorem body_without_WriteHeader_is_cached g ctx key dest req :
  createRequest lib ctx = Ok req ->
  noWriteHeader (handler req) = true ->
  mainCache g !! key = None ->
  let writer := ServeHTTP_on handler (NewCacheWriter dest) req in
  cw_statusCode writer = 0%Z
  /\ (cw_statusCode writer < 400)%Z
  /\ cw_bytes writer = written (handler req)
  /\ WriteCache writer = (Some (written (handler req)), None)
  /\ cacheGetter_Get lib handler ctx key dest = (Some (written (handler req)), None)
  /\ mainCache (fst (fst (NewGroupCache_Get lib handler g ctx key dest))) !! key
     = Some (written (handler req)).
Proof.
  intros Hreq Hn Hmiss writer.
  assert (cw_statusCode writer = 0%Z) as Hs
    by (unfold writer, ServeHTTP_on; by rewrite calls_statusCode).
  assert (cw_bytes writer = written (handler req)) as Hb
    by (unfold writer, ServeHTTP_on; by rewrite calls_bytes).
  assert (cacheGetter_Get lib handler ctx key dest = (Some (written (handler req)), None))
    as Hget by (rewrite <- Hb; apply Get_stores; [done|fold writer; lia]).
  refine (conj Hs (conj _ (conj Hb (conj _ (conj Hget _))))).
  - lia.
  - rewrite <- Hb. apply WriteCache_stores. lia.
  - unfold NewGroupCache_Get, Group_Get. rewrite Hmiss, Hget. cbn.
    by rewrite lookup_insert_eq.
Qed.

End CacheProps.

Lemma cache_load_by_status_witness :
  NewGroupCache_Get RefLib.lib Examples.badGateway NewGroup Examples.dataContext
    "[2023-11-14 22:13:00 +0000 UTC]/data?x=1" None
  = (mkGroup ∅ 1 0 0 1, None,
     Some (wrapError
             "write cache [[2023-11-14 22:13:00 +0000 UTC]/data?x=1] : http error : 502"
             (HttpError 502)))
  /\ NewGroupCache_Get RefLib.lib Examples.hello NewGroup Examples.dataContext
       "[2023-11-14 22:13:00 +0000 UTC]/data?x=1" None
     = (mkGroup {[ "[2023-11-14 22:13:00 +0000 UTC]/data?x=1" := "hello, world" ]} 1 0 1 0,
        Some "hello, world", None).
Proof.
  split.
  - destruct (cache_load_by_status RefLib.lib Examples.badGateway NewGroup
                Examples.dataContext "[2023-11-14 22:13:00 +0000 UTC]/data?x=1" None
                (mkRequest "GET" (mkURL "" "" None "" "/data" false "x=1" "") ∅ ∅ ""))
      as [Hbad _]; [vm_compute; reflexivity|reflexivity|].
    destruct Hbad as (_ & [err [Hres _]] & _); [vm_compute; discriminate|].
    vm_compute. reflexivity.
  - destruct (cache_load_by_status RefLib.lib Examples.hello NewGroup
                Examples.dataContext "[2023-11-14 22:13:00 +0000 UTC]/data?x=1" None
                (mkRequest "GET" (mkURL "" "" None "" "/data" false "x=1" "") ∅ ∅ ""))
      as (_ & Hgood & _); [vm_compute; reflexivity|reflexivity|].
    destruct Hgood as (_ & Hres & _); [vm_compute; reflexivity|].
    vm_compute. reflexivity.
Defined.

Lemma body_without_WriteHeader_is_cached_witness :
  cw_statusCode (ServeHTTP_on Examples.hello (NewCacheWriter None) Examples.data) = 0%Z
  /\ cacheGetter_Get RefLib.lib Examples.hello Examples.dataContext "key" None
     = (Some "hello, world", None).
Proof.
  destruct (body_without_WriteHeader_is_cached RefLib.lib Examples.hello NewGroup
              Examples.dataContext "key" None Examples.data)
    as (Hs & _ & _ & _ & Hget & _).
  - vm_compute. reflexivity.
  - reflexivity.
  - reflexivity.
  - split; [exact Hs|exact Hget].
Defined.

(** The cache in front of a failing handler, and in front of one that
    never calls [WriteHeader]. *)
Example ServeHTTP_badGateway :
  proxyCache_ServeHTTP RefLib.lib Examples.badGateway Examples.minute NewGroup
    (Examples.t0 + 10 * Second) Examples.data
  = (mkGroup ∅ 1 0 0 1,
     [LogInfo ["fetching key : "; "[2023-11-14 22:13:00 +0000 UTC]/data?x=1"];
      LogErrorf "error : "
        (wrapError
           "write cache [[2023-11-14 22:13:00 +0000 UTC]/data?x=1] : http error : 502"
           (HttpError 502));
      ErrorReply
        "write cache [[2023-11-14 22:13:00 +0000 UTC]/data?x=1] : http error : 502" 502]).
Proof. vm_compute. reflexivity. Qed.

Example ServeHTTP_hello :
  snd (proxyCache_ServeHTTP RefLib.lib Examples.hello Examples.minute NewGroup
         (Examples.t0 + 10 * Second) Examples.data)
  = [LogInfo ["fetching key : "; "[2023-11-14 22:13:00 +0000 UTC]/data?x=1"];
     LogInfo ["found key : "; "[2023-11-14 22:13:00 +0000 UTC]/data?x=1"; ", size : ";
              "12"; " bytes"];
     WriteHeader 200; Write "hello, world"].
Proof. vm_compute. reflexivity. Qed.

(* ===================================================================== *)
(** * Part VI: further properties of the package *)
(* ===================================================================== *)

Import More.

(** ** Texts *)

Lemma Repeat_length (s : string) (n : nat) :
  String.length (strings_Repeat s n) = (n * String.length s)%nat.
Proof. induction n as [|n IH]; [done|]. cbn. rewrite append_length, IH. lia. Qed.

Lemma Split_nonempty (s : string) (sep : ascii) : strings_Split s sep <> [].
Proof.
  destruct s as [|x s]; [done|]. cbn.
  destruct (Ascii.eqb x sep); [done|]. by destruct (strings_Split s sep).
Qed.

Lemma Split_without (s : string) (sep : ascii) :
  containsByte sep s = false -> strings_Split s sep = [s].
Proof.
  induction s as [|x s IH]; intros Hs; [done|].
  change (Ascii.eqb sep x || containsByte sep s = false) in Hs.
  apply orb_false_iff in Hs as [Hx Hs]. cbn.
  rewrite Ascii.eqb_sym, Hx. by rewrite (IH Hs).
Qed.

Lemma Split_with (s : string) (sep : ascii) :
  containsByte sep s = true -> (2 <= length (strings_Split s sep))%nat.
Proof.
  induction s as [|x s IH]; intros Hs; [done|].
  change (Ascii.eqb sep x || containsByte sep s = true) in Hs. cbn.
  rewrite Ascii.eqb_sym. destruct (Ascii.eqb sep x); cbn in Hs.
  - pose proof (Split_nonempty s sep). cbn. destruct (strings_Split s sep); [done|cbn; lia].
  - specialize (IH Hs). destruct (strings_Split s sep); cbn in *; lia.
Qed.

(** Splitting after a prefix without the separator: the prefix goes to
    the first part. *)
Lemma Split_app (a b : string) (sep : ascii) :
  containsByte sep a = false ->
  strings_Split (a +:+ b) sep
  = match strings_Split b sep with
    | p :: ps => (a +:+ p) :: ps
    | [] => [a]
    end.
Proof.
  induction a as [|x a IH]; intros Ha.
  - rewrite append_nil_l. pose proof (Split_nonempty b sep).
    by destruct (strings_Split b sep).
  - change (Ascii.eqb sep x || containsByte sep a = false) in Ha.
    apply orb_false_iff in Ha as [Hx Ha]. rewrite append_cons. cbn.
    rewrite Ascii.eqb_sym, Hx, (IH Ha).
    by destruct (strings_Split b sep).
Qed.

(** ** The session: decoding, the round trip, [UserInfo] *)

Section SessionProps.
Context (lib : Lib) (self : authServer).

Lemma decode_decodeInto (encoded : string) (value : State) :
  decode lib encoded value = decodeInto lib (json_Unmarshal_State lib) encoded value.
Proof. reflexivity. Qed.

(** What [decodeInto] does with a text, with the padding written out. *)
Lemma decodeInto_padded {A : Type} (unmarshal : string -> A -> A * option error)
  (encoded : string) (value : A) :
  let l := (String.length encoded mod 4)%nat in
  let k := if (l =? 0)%nat then 0%nat else (4 - l)%nat in
  decodeInto lib unmarshal encoded value
  = match base64_DecodeString lib (encoded +:+ strings_Repeat "=" k) with
    | Fail err => (value, Some err)
    | Ok decoded => unmarshal decoded value
    end.
Proof.
  intros l k. unfold decodeInto. fold l. unfold k.
  destruct (Nat.eqb_spec l 0) as [Hz|Hnz].
  - rewrite Hz. cbn. by rewrite append_nil_r.
  - destruct (Nat.ltb_spec 0 l); [done|lia].
Qed.

Lemma padded_length (encoded : string) :
  let l := (String.length encoded mod 4)%nat in
  let k := if (l =? 0)%nat then 0%nat else (4 - l)%nat in
  (String.length (encoded +:+ strings_Repeat "=" k) mod 4 = 0)%nat.
Proof.
  intros l k. rewrite append_length, Repeat_length. cbn [String.length].
  pose proof (Nat.mod_upper_bound (String.length encoded) 4 ltac:(lia)) as Hl.
  pose proof (Nat.div_mod_eq (String.length encoded) 4) as Hdiv.
  unfold k. destruct (Nat.eqb_spec l 0) as [Hz|Hnz].
  - rewrite Nat.add_0_r. exact Hz.
  - replace (String.length encoded + (4 - l) * 1)%nat
      with ((String.length encoded / 4 + 1) * 4)%nat by (unfold l in *; lia).
    apply Nat.Div0.mod_mul.
Qed.

(** X1. [decodeInto], so [decode], pads its text with ['='] up to the next
    multiple of four bytes before the base64 decoding, and leaves a text
    of such a length as it is: a text and its padded form decode alike. *)
Theorem decode_pads {A : Type} (unmarshal : string -> A -> A * option error)
  (encoded : string) (value : A) (state : State) :
  let l := (String.length encoded mod 4)%nat in
  let k := if (l =? 0)%nat then 0%nat else (4 - l)%nat in
  let padded := encoded +:+ strings_Repeat "=" k in
  (k < 4)%nat
  /\ (String.length padded mod 4 = 0)%nat
  /\ decodeInto lib unmarshal encoded value
     = match base64_DecodeString lib padded with
       | Fail err => (value, Some err)
       | Ok decoded => unmarshal decoded value
       end
  /\ decodeInto lib unmarshal padded value = decodeInto lib unmarshal encoded value
  /\ decode lib padded state = decode lib encoded state.
Proof.
  intros l k padded.
  pose proof (padded_length encoded) as Hpad. cbv zeta in Hpad. fold l k padded in Hpad.
  assert (forall B (u : string -> B -> B * option error) v,
            decodeInto lib u padded v = decodeInto lib u encoded v) as Hsame.
  { intros B u v. rewrite (decodeInto_padded u encoded). fold l k padded.
    unfold decodeInto. by rewrite Hpad. }
  refine (conj _ (conj Hpad (conj _ (conj _ _)))).
  - pose proof (Nat.mod_upper_bound (String.length encoded) 4 ltac:(lia)) as Hl.
    unfold k. destruct (Nat.eqb_spec l 0); unfold l in *; lia.
  - apply decodeInto_padded.
  - apply Hsame.
  - rewrite !decode_decodeInto. apply Hsame.
Qed.

(** X2. A login followed by its callback. When the callback brings back
    the cookie and the state of the login, without an [error] parameter,
    the state decodes to what the login encoded, the target of the login
    parses to a URL without host and the code is exchanged, [Callback]
    sets the session cookie, clears the state cookie and redirects to
    the target that the login was given (["/"] when it was given
    none). *)
Theorem Login_Callback_round_trip now now' r0 state r cookie u token :
  encodeState lib now r0 = Ok state ->
  decode lib state (mkState "" 0) = (mkState (Logout_target r0) (Time_Unix now), None) ->
  Request_Cookie r (stateCookieName self) = Ok cookie ->
  Cookie_Value cookie = state ->
  FormValue r "state" = state ->
  FormValue r "error" = "" ->
  url_Parse lib (Logout_target r0) = Ok u ->
  URL_Host u = "" ->
  Config_Exchange lib (authConfig self) (FormValue r "code") = Ok token ->
  Login lib self now now' r0
  = [SetCookie (mkCookie (stateCookieName self) state "/" (Some (now' + Hour)%Z) 0 true);
     Redirect (Config_AuthCodeURL lib (authConfig self) state [AccessTypeOffline]) 307]
  /\ Callback lib self r
     = [SetCookie (mkCookie (authCookieName self)
                     (Token_TokenType token +:+ " " +:+ Token_AccessToken token)
                     "/" (Token_Expiry token) 0 true);
        SetCookie (mkCookie (stateCookieName self) "" "/" None (-1) false);
        Redirect (URL_String u) 307].
Proof.
  intros Hlogin Hdec Hc Hv Hs He Hp Hh Hx. split.
  - unfold Login. by rewrite Hlogin.
  - apply (Callback_success lib self r (mkState (Logout_target r0) (Time_Unix now)));
      try done.
    unfold decodeState. rewrite Hc, Hv, Hs, String.eqb_refl. cbn. exact Hdec.
Qed.

Section UserInfoProps.
Context {Claims : Type} (nilClaims : Claims)
  (json_Unmarshal_claims : string -> Claims -> Claims * option error)
  (json_Encode_claims : Claims -> Result string).

(** X3. [UserInfo] on a session cookie of the form that [Callback] sets,
    token type, a space, access token, with a token type without a dot:
    it answers 401 when the access token has no dot, and otherwise
    decodes the second dot-separated segment of the access token, padded
    as [decode] pads, answers 401 when that fails, and writes the
    claims when it succeeds. It sets no cookie. *)
Theorem UserInfo_reads_access_token r cookie tokenType accessToken :
  Request_Cookie r (authCookieName self) = Ok cookie ->
  Cookie_Value cookie = tokenType +:+ " " +:+ accessToken ->
  containsByte "." tokenType = false ->
  UserInfo lib nilClaims json_Unmarshal_claims json_Encode_claims self r
  = (if containsByte "." accessToken then
       match decodeInto lib json_Unmarshal_claims
               (nth 1 (strings_Split accessToken ".") "") nilClaims with
       | (_, Some err) => [WriteHeader 401; LogError err]
       | (claims, None) =>
           match json_Encode_claims claims with
           | Ok json => [Write json]
           | Fail _ => []
           end
       end
     else [WriteHeader 401; LogDebug "Marlformed authorization cookie"])
  /\ cookiesSet (UserInfo lib nilClaims json_Unmarshal_claims json_Encode_claims self r) = [].
Proof.
  intros Hc Hv Htype.
  assert (UserInfo lib nilClaims json_Unmarshal_claims json_Encode_claims self r
          = (if containsByte "." accessToken then
               match decodeInto lib json_Unmarshal_claims
                       (nth 1 (strings_Split accessToken ".") "") nilClaims with
               | (_, Some err) => [WriteHeader 401; LogError err]
               | (claims, None) =>
                   match json_Encode_claims claims with
                   | Ok json => [Write json]
                   | Fail _ => []
                   end
               end
             else [WriteHeader 401; LogDebug "Marlformed authorization cookie"])) as Heq.
  { unfold UserInfo. rewrite Hc, Hv, <- append_assoc.
    rewrite Split_app
      by (rewrite containsByte_app, Htype; reflexivity).
    destruct (containsByte "." accessToken) eqn:Hdot.
    - pose proof (Split_with _ _ Hdot) as Hlen.
      destruct (strings_Split accessToken ".") as [|p [|q ps]]; cbn in Hlen; try lia.
      reflexivity.
    - by rewrite (Split_without _ _ Hdot). }
  split; [exact Heq|]. rewrite Heq.
  destruct (containsByte "." accessToken); [|done].
  destruct (decodeInto _ _ _ _) as [claims [err|]]; [done|].
  by destruct (json_Encode_claims claims).
Qed.

End UserInfoProps.

End SessionProps.

Lemma Login_Callback_round_trip_witness :
  Callback RefLib.lib Examples.server (Examples.callback "/dashboard" "abc")
  = [SetCookie (mkCookie "auth" "Bearer token-abc" "/" None 0 true);
     SetCookie (mkCookie "state" "" "/" None (-1) false);
     Redirect "/dashboard" 307].
Proof.
  refine (proj2 (Login_Callback_round_trip RefLib.lib Examples.server
                   Examples.epoch Examples.epoch Examples.login_dashboard
                   (Examples.stateFor "/dashboard")
                   (Examples.callback "/dashboard" "abc")
                   (mkCookie "state" (Examples.stateFor "/dashboard") "" None 0 false)
                   (mkURL "" "" None "" "/dashboard" false "" "")
                   (mkToken "token-abc" "Bearer" None) _ _ _ _ _ _ _ _ _));
    vm_compute; reflexivity.
Defined.

Lemma UserInfo_reads_access_token_witness :
  UserInfo RefLib.lib "" rawClaims_Unmarshal rawClaims_Encode Examples.server withToken
  = [Write ("{" +:+ quoted "sub" +:+ ":" +:+ quoted "u" +:+ "}" +:+ String "010" "")].
Proof.
  rewrite (proj1 (UserInfo_reads_access_token RefLib.lib Examples.server ""
                    rawClaims_Unmarshal rawClaims_Encode withToken
                    (mkCookie "auth" "Bearer aGVhZGVy.eyJzdWIiOiJ1In0.c2ln" "" None 0 false)
                    "Bearer" "aGVhZGVy.eyJzdWIiOiJ1In0.c2ln"
                    ltac:(vm_compute; reflexivity) ltac:(vm_compute; reflexivity)
                    ltac:(vm_compute; reflexivity))).
  vm_compute. reflexivity.
Defined.

(** ** The proxy: the pipeline of modifiers, the outbound request *)

Lemma applyOptions_WithModifier (ms : list Modifier) (server : proxyServer) :
  Modifiers (applyOptions (map WithModifier ms) server) = Modifiers server ++ ms.
Proof.
  revert server. induction ms as [|m ms IH]; intros server; cbn.
  - by rewrite app_nil_r.
  - rewrite IH. cbn. by rewrite <- app_assoc.
Qed.

Lemma runModifiers_app (a b : list Modifier) (req : Request) :
  runModifiers (a ++ b) req
  = match runModifiers a req with
    | (log, Fail err) => (log, Fail err)
    | (log, Ok req') => let (log', res) := runModifiers b req' in (log ++ log', res)
    end.
Proof.
  revert req. induction a as [|m a IH]; intros req.
  - cbn. by destruct (runModifiers b req).
  - cbn. destruct (m req) as [[log req'] [err|]]; [done|].
    rewrite IH. destruct (runModifiers a req') as [log' [req''|err]]; [|done].
    destruct (runModifiers b req'') as [log'' res]. by rewrite app_assoc.
Qed.

(** X4. The modifiers given through [WithModifier] are kept in the order
    of the options, after those the server had. The pipeline runs them
    in this order, each on the request the one before left; the first
    error ends it, wrapped with the prefix ["modifier: "], and the
    modifiers after it are not run: their part of the list does not
    matter. *)
Theorem modifier_pipeline (ms a b : list Modifier) (m : Modifier)
  (server : proxyServer) (req : Request) :
  Modifiers (applyOptions (map WithModifier ms) server) = Modifiers server ++ ms
  /\ runModifiers (a ++ b) req
     = match runModifiers a req with
       | (log, Fail err) => (log, Fail err)
       | (log, Ok req') => let (log', res) := runModifiers b req' in (log ++ log', res)
       end
  /\ (forall log req' log' req'' err,
        runModifiers a req = (log, Ok req') ->
        m req' = (log', req'', Some err) ->
        runModifiers (a ++ m :: b) req
        = (log ++ log', Fail (wrapError ("modifier: " +:+ error_Error err) err)))
  /\ (forall log err,
        runModifiers a req = (log, Fail err) ->
        runModifiers (a ++ b) req = (log, Fail err)).
Proof.
  split; [apply applyOptions_WithModifier|]. split; [apply runModifiers_app|]. split.
  - intros log req' log' req'' err Ha Hm. rewrite runModifiers_app, Ha. cbn.
    by rewrite Hm.
  - intros log err Ha. by rewrite runModifiers_app, Ha.
Qed.

Lemma fold_Header_Add (h : string) (vs : list string) (d : Header) :
  fold_left (fun d' v => Header_Add d' h v) vs d = headerAfter d (map (HeaderAdd h) vs).
Proof. revert d. induction vs as [|v vs IH]; intros d; [done|]. cbn. apply IH. Qed.

(** The copy loop on a header map and the same loop seen as calls. *)
Lemma copyHeader_headerAfter range (src dst : Header) :
  copyHeader range src dst = headerAfter dst (copyHeaderEvents range src).
Proof.
  unfold copyHeader, copyHeaderEvents. revert dst.
  induction (range src) as [|[h vs] l IH]; intros dst; [done|].
  cbn. rewrite headerAfter_app, IH. by rewrite fold_Header_Add.
Qed.

Lemma Request_Cookie_values (r r' : Request) (name : string) :
  Header_values (Request_Header r') "Cookie" = Header_values (Request_Header r) "Cookie" ->
  Request_Cookie r' name = Request_Cookie r name.
Proof. intros Hv. unfold Request_Cookie, readCookies. by rewrite Hv. Qed.

Lemma Header_values_Add_Authorization (h : Header) (v : string) :
  Header_values (Header_Add h "Authorization" v) "Authorization"
  = Header_values h "Authorization" ++ [v].
Proof.
  pose proof (Header_values_Add_same h "Authorization" v) as Hadd.
  by rewrite canonical_Authorization in Hadd.
Qed.

Lemma Header_values_Del_Cookie (h : Header) (k : string) :
  k <> "Cookie" -> Header_values (Header_Del h "Cookie") k = Header_values h k.
Proof.
  intros Hk. unfold Header_Del, Header_values. rewrite canonical_Cookie.
  by rewrite lookup_delete_ne.
Qed.

Section OutboundProps.
Context (lib : Lib) (range : Header -> list (string * list string)).

(** X5. The outbound request of a proxy whose modifier is that of the
    session server, for an inbound request with canonical header names:
    [NewRequest] succeeds, and the request it builds has every inbound
    header with its values, except that, when the session cookie is
    present, the [Cookie] header is gone and the cookie's value is added
    to the [Authorization] values. *)
Theorem NewRequest_forwards_session (proxy : proxyServer) (auth : authServer)
  (r req0 : Request) :
  (forall m, range m ≡ₚ map_to_list m) ->
  (forall h, is_Some (Request_Header r !! h) -> CanonicalMIMEHeaderKey h = h) ->
  http_NewRequest lib (Request_Method r)
    (URL_String (URL_ResolveReference lib (Target proxy) (Request_URL r)))
    (Request_Body r) = Ok req0 ->
  Request_Header req0 = ∅ ->
  Modifiers proxy = [ModifyHeader auth] ->
  exists log req,
    NewRequest lib range proxy r = (log, Ok req)
    /\ Request_URL req = Request_URL req0
    /\ Request_Method req = Request_Method req0
    /\ Request_Body req = Request_Body req0
    /\ match Request_Cookie r (authCookieName auth) with
       | Ok cookie =>
           Header_values (Request_Header req) "Authorization"
           = Header_values (Request_Header r) "Authorization" ++ [Cookie_Value cookie]
           /\ Request_Header req !! "Cookie" = None
           /\ forall k, k <> "Authorization" -> k <> "Cookie" ->
                Header_values (Request_Header req) k = Header_values (Request_Header r) k
       | Fail _ =>
           forall k, Header_values (Request_Header req) k = Header_values (Request_Header r) k
       end.
Proof.
  intros Hrange Hcanon Hreq Hempty Hms.
  set (req1 := with_Header req0
                 (copyHeader range (Request_Header r) (Request_Header req0))).
  assert (forall k, Header_values (Request_Header req1) k
                    = Header_values (Request_Header r) k) as Hcopy.
  { intros k. unfold req1. cbn. rewrite copyHeader_headerAfter, Hempty.
    rewrite copyHeaderEvents_header by done.
    unfold Header_values at 1. by rewrite lookup_empty. }
  pose proof (Request_Cookie_values r req1 (authCookieName auth) (Hcopy "Cookie")) as Hck.
  unfold NewRequest. rewrite Hreq, Hms. fold req1. cbn [runModifiers].
  destruct (Request_Cookie r (authCookieName auth)) as [cookie|e] eqn:Hc.
  - rewrite (ModifyHeader_present _ _ _ Hck). cbn -[Header_Add Header_Del].
    do 2 eexists. split; [reflexivity|]. cbn -[Header_Add Header_Del].
    repeat split.
    + rewrite Header_values_Del_Cookie by done.
      by rewrite Header_values_Add_Authorization, Hcopy.
    + rewrite <- canonical_Cookie at 2. apply Header_Del_lookup.
    + intros k Ha Hk. rewrite Header_values_Del_Cookie by done.
      rewrite Header_values_Add_other by (by rewrite canonical_Authorization).
      apply Hcopy.
  - rewrite (ModifyHeader_absent _ _ _ Hck). cbn.
    do 2 eexists. split; [reflexivity|]. by repeat split.
Qed.

(** X6. [Serve] of the later revision (unnamed/part_001): a failure of
    [NewRequest] or of the upstream call is wrapped, logged, and
    answered with the status and the message of the first
    [*statusError] on its chain, and with 500 and the message of the
    whole error when there is none; nothing of an upstream response is
    relayed. *)
Theorem Serve_part_001_honours_status (self : proxyServer) (r : Request)
  (log : list event) (err : error) :
  NewRequest lib range self r = (log, Fail err)
  \/ (exists req, NewRequest lib range self r = (log, Ok req)
                  /\ Client_Do self req = Fail err) ->
  exists wrapped,
    Serve_part_001 lib range self r = log ++ handleError wrapped
    /\ errors_As_statusError wrapped = errors_As_statusError err
    /\ handleError wrapped
       = match errors_As_statusError err with
         | Some (code, inner) =>
             [LogErrorf "handle status error: " wrapped;
              ErrorReply (error_Error (statusError code inner)) code]
         | None =>
             [LogErrorf "handle error: " wrapped;
              ErrorReply (error_Error wrapped) 500]
         end
    /\ status (handleError wrapped)
       = Some (match errors_As_statusError err with
               | Some (code, _) => code
               | None => 500%Z
               end)
    /\ logged (handleError wrapped) = [wrapped].
Proof.
  intros [Hn|[req [Hn Hd]]].
  - exists (fmt_Errorf_w "new request: " err). unfold Serve_part_001. rewrite Hn.
    split; [done|]. split; [done|]. unfold handleError. cbn [fmt_Errorf_w errors_As_statusError].
    by destruct (errors_As_statusError err) as [[code inner]|].
  - exists (fmt_Errorf_w "client do: " err). unfold Serve_part_001. rewrite Hn, Hd.
    split; [done|]. split; [done|]. unfold handleError. cbn [fmt_Errorf_w errors_As_statusError].
    by destruct (errors_As_statusError err) as [[code inner]|].
Qed.

End OutboundProps.

Lemma NewRequest_forwards_session_witness :
  exists log req,
    NewRequest RefLib.lib map_to_list Examples.proxy Examples.signedIn = (log, Ok req)
    /\ Header_values (Request_Header req) "Authorization" = ["Bearer token-abc"]
    /\ Request_Header req !! "Cookie" = None.
Proof.
  destruct (NewRequest_forwards_session RefLib.lib map_to_list Examples.proxy
              Examples.server Examples.signedIn
              (mkRequest "GET"
                 (mkURL "https" "" None "api.example" "/api/items" false "" "") ∅ ∅ ""))
    as (log & req & Hn & _ & _ & _ & Hh).
  - intros m. reflexivity.
  - intros h [vs Hl]. destruct (decide (h = "Cookie")) as [->|Hne]; [reflexivity|].
    unfold Examples.signedIn, Examples.get in Hl. cbn in Hl.
    by rewrite lookup_singleton_ne in Hl.
  - vm_compute. reflexivity.
  - reflexivity.
  - reflexivity.
  - exists log, req. split; [exact Hn|].
    change (Request_Cookie Examples.signedIn (authCookieName Examples.server))
      with (Ok (mkCookie "auth" "Bearer token-abc" "" None 0 false)) in Hh.
    destruct Hh as (Ha & Hk & _). split; [exact Ha|exact Hk].
Defined.

Lemma Serve_part_001_honours_status_witness :
  exists wrapped,
    Serve_part_001 RefLib.lib map_to_list Examples.guarded Examples.themed
    = [LogInfo ["<<< "; "/api/items"]] ++ handleError wrapped
    /\ status (handleError wrapped) = Some 403%Z.
Proof.
  destruct (Serve_part_001_honours_status RefLib.lib map_to_list Examples.guarded
              Examples.themed [LogInfo ["<<< "; "/api/items"]]
              (wrapError "modifier: status 403: err forbidden"
                 (statusError 403 (Some (errorString "forbidden")))))
    as (wrapped & Hs & _ & _ & Hstatus & _).
  - left. vm_compute. reflexivity.
  - exists wrapped. split; [exact Hs|exact Hstatus].
Defined.

(** ** The cache layer: what a load keeps, what a hit replays *)

Lemma calls_lastStatus (calls : list writerCall) (c : cacheWriter) :
  cw_statusCode (fold_left cacheWriter_call calls c) = lastStatus calls (cw_statusCode c).
Proof.
  revert c. induction calls as [|call calls IH]; intros c; [done|].
  cbn [fold_left]. rewrite IH. by destruct call.
Qed.

Section LoadProps.
Context (lib : Lib) (handler : Handler).

Lemma captured_status dest req :
  cw_statusCode (ServeHTTP_on handler (NewCacheWriter dest) req)
  = lastStatus (handler req) 0.
Proof. unfold ServeHTTP_on. by rewrite calls_lastStatus. Qed.

Lemma captured_bytes dest req :
  cw_bytes (ServeHTTP_on handler (NewCacheWriter dest) req) = written (handler req).
Proof. unfold ServeHTTP_on. by rewrite calls_bytes. Qed.

Lemma Get_closed_form ctx key dest req :
  createRequest lib ctx = Ok req ->
  cacheGetter_Get lib handler ctx key dest
  = if (lastStatus (handler req) 0 >=? 400)%Z then
      (dest, Some (fmt_Errorf_w ("write cache [" +:+ key +:+ "] : ")
                     (HttpError (lastStatus (handler req) 0))))
    else (Some (written (handler req)), None).
Proof.
  intros Hreq.
  destruct (Z.geb_spec (lastStatus (handler req) 0) 400) as [Hge|Hlt].
  - rewrite (Get_error lib handler ctx key dest req Hreq)
      by (rewrite captured_status; lia).
    by rewrite captured_status.
  - rewrite (Get_stores lib handler ctx key dest req Hreq)
      by (rewrite captured_status; lia).
    by rewrite captured_bytes.
Qed.

(** X7. What a load keeps of the handler's answer: the status of its last
    [WriteHeader] call (0 when it made none) and the bytes of all its
    [Write] calls, in order; the header calls are dropped. With a last
    status of 400 or more the load fails with an [*HttpError] of this
    status under the prefix of the key and the sink stays as it was; with
    a lower one the sink holds all the bytes written, also those written
    before a [WriteHeader]. *)
Theorem cacheGetter_Get_outcome ctx key dest req :
  createRequest lib ctx = Ok req ->
  cacheGetter_Get lib handler ctx key dest
  = if (lastStatus (handler req) 0 >=? 400)%Z then
      (dest, Some (wrapError
                     ("write cache [" +:+ key +:+ "] : "
                      +:+ "http error : " +:+ pretty (lastStatus (handler req) 0))
                     (HttpError (lastStatus (handler req) 0))))
    else (Some (written (handler req)), None).
Proof.
  intros Hreq. rewrite (Get_closed_form _ _ _ _ Hreq).
  destruct (lastStatus (handler req) 0 >=? 400)%Z; [|done].
  unfold fmt_Errorf_w. cbn [error_Error]. by rewrite !append_assoc.
Qed.

(** X8. A request that misses, and that the handler answers with a last
    status below 400, is answered with 200 and the bytes the handler
    wrote; a later request with the same URL text, at a time that rounds
    to the same multiple of the TTL, is answered with the same calls
    without a load, whatever its method, header and body, and whatever
    the handler would answer now. *)
Theorem ServeHTTP_replays (handler' : Handler) ttl g t1 t2 r1 r2 req :
  createRequest lib (contextOf r1) = Ok req ->
  mainCache g !! cacheKey lib t1 ttl (URL_String (Request_URL r1)) = None ->
  (lastStatus (handler req) 0 < 400)%Z ->
  URL_String (Request_URL r2) = URL_String (Request_URL r1) ->
  Time_Round t2 ttl = Time_Round t1 ttl ->
  let first := proxyCache_ServeHTTP lib handler ttl g t1 r1 in
  let second := proxyCache_ServeHTTP lib handler' ttl (fst first) t2 r2 in
  let key := cacheKey lib t1 ttl (URL_String (Request_URL r1)) in
  snd first
  = [LogInfo ["fetching key : "; key];
     LogInfo ["found key : "; key; ", size : ";
              pretty (String.length (written (handler req))); " bytes"];
     WriteHeader 200; Write (written (handler req))]
  /\ snd second = snd first
  /\ loads (fst first) = S (loads g)
  /\ loads (fst second) = loads (fst first)
  /\ Stats_CacheHits (fst second) = S (Stats_CacheHits g).
Proof.
  intros Hreq Hmiss Hs Hurl Hround first second key.
  assert (first
          = (mkGroup (<[key := written (handler req)]> (mainCache g)) (S (Stats_Gets g))
               (Stats_CacheHits g) (S (Stats_LocalLoads g)) (Stats_LocalLoadErrs g),
             [LogInfo ["fetching key : "; key];
              LogInfo ["found key : "; key; ", size : ";
                       pretty (String.length (written (handler req))); " bytes"];
              WriteHeader 200; Write (written (handler req))])) as Hfirst.
  { unfold first, proxyCache_ServeHTTP, NewGroupCache_Get, Group_Get, key.
    rewrite Hmiss. fold (contextOf r1).
    rewrite (Get_closed_form _ _ _ _ Hreq).
    destruct (Z.geb_spec (lastStatus (handler req) 0) 400); [lia|done]. }
  assert (second
          = (mkGroup (<[key := written (handler req)]> (mainCache g)) (S (S (Stats_Gets g)))
               (S (Stats_CacheHits g)) (S (Stats_LocalLoads g)) (Stats_LocalLoadErrs g),
             snd first)) as Hsecond.
  { assert (cacheKey lib t2 ttl (URL_String (Request_URL r2)) = key) as Hkey
      by (unfold key, cacheKey; by rewrite Hurl, Hround).
    unfold second. rewrite Hfirst.
    unfold proxyCache_ServeHTTP, NewGroupCache_Get, Group_Get.
    rewrite Hkey. cbn [fst snd mainCache]. by rewrite lookup_insert_eq. }
  rewrite Hsecond, Hfirst. unfold loads. cbn. repeat split; lia.
Qed.

(** X9. When the request of the load cannot be built, the client is
    answered with 500 (the error has no [*HttpError] on its chain),
    nothing is stored, and the handler plays no part. *)
Theorem ServeHTTP_request_error ttl g now r err :
  http_NewRequest lib "GET" (URL_String (Request_URL r)) "" = Fail err ->
  errors_As_HttpError err = None ->
  mainCache g !! cacheKey lib now ttl (URL_String (Request_URL r)) = None ->
  let key := cacheKey lib now ttl (URL_String (Request_URL r)) in
  let wrapped :=
    fmt_Errorf_w ("create request [" +:+ key +:+ "] : ")
      (fmt_Errorf_w ("request [" +:+ URL_String (Request_URL r) +:+ "] : ") err) in
  proxyCache_ServeHTTP lib handler ttl g now r
  = (mkGroup (mainCache g) (S (Stats_Gets g)) (Stats_CacheHits g)
       (Stats_LocalLoads g) (S (Stats_LocalLoadErrs g)),
     [LogInfo ["fetching key : "; key];
      LogErrorf "error : " wrapped;
      ErrorReply (error_Error wrapped) 500]).
Proof.
  intros Hreq Has Hmiss key wrapped.
  assert (errors_As_HttpError wrapped = None) as Hnone by (unfold wrapped; by cbn).
  unfold proxyCache_ServeHTTP, NewGroupCache_Get, Group_Get.
  fold key. unfold key at 1. rewrite Hmiss. fold key.
  unfold cacheGetter_Get, createRequest. cbn [contextKeyUrl contextKeyHeaders].
  rewrite Hreq. fold wrapped. unfold serveError. by rewrite Hnone.
Qed.

End LoadProps.

Lemma cacheGetter_Get_outcome_witness :
  cacheGetter_Get RefLib.lib lateFailure Examples.dataContext "k" None
  = (None, Some (wrapError "write cache [k] : http error : 503" (HttpError 503))).
Proof.
  rewrite (cacheGetter_Get_outcome RefLib.lib lateFailure Examples.dataContext "k" None
             (mkRequest "GET" (mkURL "" "" None "" "/data" false "x=1" "") ∅ ∅ "")
             ltac:(vm_compute; reflexivity)).
  vm_compute. reflexivity.
Defined.

Lemma ServeHTTP_replays_witness :
  snd (proxyCache_ServeHTTP RefLib.lib Examples.badGateway Examples.minute
         (fst (proxyCache_ServeHTTP RefLib.lib Examples.hello Examples.minute NewGroup
                 (Examples.t0 + 10 * Second) Examples.data))
         (Examples.t0 + 20 * Second) postData)
  = snd (proxyCache_ServeHTTP RefLib.lib Examples.hello Examples.minute NewGroup
           (Examples.t0 + 10 * Second) Examples.data).
Proof.
  refine (proj1 (proj2 (ServeHTTP_replays RefLib.lib Examples.hello Examples.badGateway
                          Examples.minute NewGroup
                          (Examples.t0 + 10 * Second) (Examples.t0 + 20 * Second)
                          Examples.data postData
                          (mkRequest "GET" (mkURL "" "" None "" "/data" false "x=1" "") ∅ ∅ "")
                          _ _ _ _ _)));
    vm_compute; reflexivity.
Defined.

Lemma ServeHTTP_request_error_witness :
  status (snd (proxyCache_ServeHTTP RefLib.lib Examples.hello Examples.minute NewGroup
                 Examples.t0 badPort)) = Some 500%Z
  /\ mainCache (fst (proxyCache_ServeHTTP RefLib.lib Examples.hello Examples.minute NewGroup
                       Examples.t0 badPort)) = ∅.
Proof.
  rewrite (ServeHTTP_request_error RefLib.lib Examples.hello Examples.minute NewGroup
             Examples.t0 badPort
             (wrapError
                ("parse " +:+ quoted "//example.com:port/data" +:+ ": invalid port after host")
                (errorString "invalid port after host"))
             ltac:(vm_compute; reflexivity) ltac:(reflexivity) ltac:(reflexivity)).
  split; reflexivity.
Defined.

(** ** The pattern of the proxy *)

Lemma TrimRight_slash (s : string) (c : ascii) :
  strings_TrimRight (s +:+ String c "") c = strings_TrimRight s c.
Proof.
  induction s as [|x s IH].
  - rewrite append_nil_l. cbn [strings_TrimRight]. by rewrite Ascii.eqb_refl.
  - rewrite append_cons. cbn [strings_TrimRight]. by rewrite IH.
Qed.

Lemma TrimRight_idempotent (s : string) (c : ascii) :
  strings_TrimRight (strings_TrimRight s c) c = strings_TrimRight s c.
Proof.
  induction s as [|x s IH]; [done|]. cbn [strings_TrimRight].
  destruct (strings_TrimRight s c) as [|y t] eqn:Ht.
  - destruct (Ascii.eqb x c) eqn:Hx; [done|]. cbn. by rewrite Hx.
  - cbn [strings_TrimRight]. cbn [strings_TrimRight] in IH. by rewrite IH.
Qed.

Lemma TrimRight_empty (s : string) (c : ascii) :
  strings_TrimRight s c = "" <-> forallb_string (fun x => Ascii.eqb x c) s = true.
Proof.
  induction s as [|x s IH]; [done|]. cbn [strings_TrimRight forallb_string].
  destruct (strings_TrimRight s c) as [|y t].
  - destruct (Ascii.eqb x c); cbn; [tauto|]. split; discriminate.
  - split; [discriminate|]. intros [_ Hs]%andb_true_iff. by apply IH in Hs.
Qed.

(** X10. The pattern under which the proxy is mounted: the path of the
    target without its trailing slashes, and one slash. A slash more or
    less at the end of the target's path changes nothing, the pattern
    of a pattern is the pattern, and the pattern is ["/"], the pattern
    of the fallback handler, exactly when the path is empty or made of
    slashes. *)
Theorem proxyPath_normal (path : string) :
  proxyPath (path +:+ "/") = proxyPath path
  /\ proxyPath (proxyPath path) = proxyPath path
  /\ (proxyPath path = "/"
      <-> forallb_string (fun x => Ascii.eqb x "/") path = true).
Proof.
  unfold proxyPath. refine (conj _ (conj _ _)).
  - by rewrite TrimRight_slash.
  - by rewrite TrimRight_slash, TrimRight_idempotent.
  - rewrite <- TrimRight_empty. split.
    + intros Heq. change "/" with ("" +:+ "/") in Heq at 2. by apply append_inj_r in Heq.
    + by intros ->.
Qed.

(** ** The decorator of the build with the tag [cache] *)

Lemma headerAfterCalls_app (h : Header) (a b : list writerCall) :
  headerAfterCalls h (a ++ b) = headerAfterCalls (headerAfterCalls h a) b.
Proof.
  revert h. induction a as [|call a IH]; intros h; [done|].
  destruct call; cbn; apply IH.
Qed.

Lemma written_app (a b : list writerCall) :
  written (a ++ b) = written a +:+ written b.
Proof.
  induction a as [|call a IH]; [done|].
  destruct call; cbn; try done. by rewrite IH, append_assoc.
Qed.

Section CacheControlProps.
Context (formatSeconds : Z -> string) (ttl : Z) (handler : Handler).

Lemma written_cacheControl (calls : list writerCall) :
  written (flat_map (cacheControlWriter_call formatSeconds ttl) calls) = written calls.
Proof.
  induction calls as [|call calls IH]; [done|].
  destruct call; cbn; try done; try by rewrite IH.
  unfold cacheControlWriter_WriteHeader. by destruct (statusCode =? StatusOK)%Z.
Qed.

Lemma statusCalls_cacheControl (calls : list writerCall) :
  statusCalls (flat_map (cacheControlWriter_call formatSeconds ttl) calls)
  = statusCalls calls.
Proof.
  induction calls as [|call calls IH]; [done|].
  destruct call; cbn; try done.
  unfold cacheControlWriter_WriteHeader.
  destruct (statusCode =? StatusOK)%Z; cbn; by rewrite IH.
Qed.

(** X11. The handler behind [NewWithCacheControl]: the bytes it writes
    and the statuses it sends reach the writer unchanged and in order.
    The [Cache-Control] header is set only by a call of [WriteHeader]
    with 200: a handler that never makes one, also one that writes a body
    without calling [WriteHeader], reaches the writer unchanged. At such
    a call the header holds the one value ["max-age=..., private"],
    whatever the handler had put there. *)
Theorem NewWithCacheControl_calls (r : Request) :
  written (NewWithCacheControl formatSeconds ttl handler r) = written (handler r)
  /\ statusCalls (NewWithCacheControl formatSeconds ttl handler r) = statusCalls (handler r)
  /\ (~ In 200%Z (statusCalls (handler r)) ->
      NewWithCacheControl formatSeconds ttl handler r = handler r)
  /\ (forall pre post h,
        handler r = pre ++ CallWriteHeader 200 :: post ->
        exists before after,
          NewWithCacheControl formatSeconds ttl handler r
          = before ++ CallWriteHeader 200 :: after
          /\ written before = written pre
          /\ Header_values (headerAfterCalls h before) "Cache-Control"
             = ["max-age=" +:+ formatSeconds ttl +:+ ", private"]).
Proof.
  unfold NewWithCacheControl. refine (conj _ (conj _ (conj _ _))).
  - apply written_cacheControl.
  - apply statusCalls_cacheControl.
  - induction (handler r) as [|call calls IH]; [done|]. intros Hno.
    destruct call; cbn; try (rewrite IH; [done|exact Hno]).
    unfold cacheControlWriter_WriteHeader.
    destruct (Z.eqb_spec statusCode StatusOK) as [->|Hne].
    + exfalso. apply Hno. by left.
    + cbn. rewrite IH; [done|]. intros Hin. apply Hno. by right.
  - intros pre post h ->. rewrite flat_map_app. cbn [flat_map cacheControlWriter_call].
    unfold cacheControlWriter_WriteHeader. cbn [Z.eqb StatusOK Pos.eqb app].
    exists (flat_map (cacheControlWriter_call formatSeconds ttl) pre
            ++ [CallHeaderSet "Cache-Control"
                  ("max-age=" +:+ formatSeconds ttl +:+ ", private")]),
      (flat_map (cacheControlWriter_call formatSeconds ttl) post).
    refine (conj _ (conj _ _)).
    + by rewrite <- app_assoc.
    + rewrite written_app, written_cacheControl. cbn. by rewrite append_nil_r.
    + rewrite headerAfterCalls_app. cbn. unfold Header_Set, Header_values.
      by rewrite lookup_insert_eq.
Qed.

End CacheControlProps.

(** ** The cache of asset names *)

Section AssetProps.
Context (md5hex : string -> string).

(** X12. [Asset] answers with the name of the asset, ["?id="] and an
    identifier, and remembers the identifier: once it has succeeded for
    a name it answers the same for this name without opening the file,
    whatever the file system has become. The first time, the identifier
    is the sum of the contents read; a failure to open or to read is
    returned wrapped and leaves the cache as it was; the entries of the
    other names are never touched. *)
Theorem Asset_memoizes (fs : FileSystem) (self : assetCache) (asset : string) :
  match Asset md5hex fs self asset with
  | (self', Ok url) =>
      (exists id, url = asset +:+ "?id=" +:+ id /\ self' !! asset = Some id)
      /\ (forall fs', Asset md5hex fs' self' asset = (self', Ok url))
      /\ (self !! asset = None ->
          exists contents, fs asset = Ok (Ok contents)
                           /\ self' = <[asset := md5hex contents]> self)
      /\ (is_Some (self !! asset) -> self' = self)
  | (self', Fail err) =>
      self' = self /\ self !! asset = None
      /\ ((exists e, fs asset = Fail e
                     /\ err = fmt_Errorf_w ("open [" +:+ asset +:+ "] : ") e)
          \/ (exists e, fs asset = Ok (Fail e)
                        /\ err = fmt_Errorf_w ("read [" +:+ asset +:+ "] : ") e))
  end
  /\ (forall other, other <> asset ->
        fst (Asset md5hex fs self asset) !! other = self !! other).
Proof.
  unfold Asset, assetCache in *. destruct (self !! asset) as [id|] eqn:Hl.
  - split; [|done]. refine (conj _ (conj _ (conj _ _))).
    + by exists id.
    + intros fs'. by rewrite Hl.
    + done.
    + done.
  - destruct (fs asset) as [[contents|e]|e] eqn:Hfs.
    + split.
      * refine (conj _ (conj _ (conj _ _))).
        -- exists (md5hex contents). by rewrite lookup_insert_eq.
        -- intros fs'. by rewrite lookup_insert_eq.
        -- intros _. by exists contents.
        -- by intros [? ?].
      * intros other Hne. cbn. by rewrite lookup_insert_ne.
    + split; [|done]. split; [done|]. split; [done|]. right. by exists e.
    + split; [|done]. split; [done|]. split; [done|]. left. by exists e.
Qed.

End AssetProps.

Example Asset_oneFile :
  Asset lengthHex oneFile NewAssetCache "/app.js"
  = ({[ "/app.js" := "14" ]}, Ok "/app.js?id=14")
  /\ Asset lengthHex oneFile NewAssetCache "/missing.js"
     = (∅, Fail (wrapError "open [/missing.js] : file does not exist"
                   (errorString "file does not exist"))).
Proof. split; vm_compute; reflexivity. Qed.

(** ** The decorator under the cache layer *)

Lemma last_cons_default (x : Z) (l : list Z) (d d' : Z) :
  List.last (x :: l) d = List.last (x :: l) d'.
Proof.
  revert x. induction l as [|y l IH]; intros x; [done|].
  change (List.last (y :: l) d = List.last (y :: l) d'). apply IH.
Qed.

Lemma lastStatus_statusCalls (calls : list writerCall) (current : Z) :
  lastStatus calls current = List.last (statusCalls calls) current.
Proof.
  revert current. induction calls as [|call calls IH]; intros current; [done|].
  destruct call; cbn [lastStatus statusCalls]; try apply IH.
  rewrite IH. destruct (statusCalls calls) as [|z l]; [done|].
  change (List.last (z :: l) statusCode = List.last (z :: l) current).
  apply last_cons_default.
Qed.

(** X13. A load through the cache layer keeps nothing of what
    [NewWithCacheControl] adds: the decorated handler and the handler
    itself give the same load, and so the same reply of [ServeHTTP]. *)
Theorem cache_drops_CacheControl (lib : Lib) (formatSeconds : Z -> string)
  (ttl : Z) (handler : Handler) :
  (forall ctx key dest,
     cacheGetter_Get lib (NewWithCacheControl formatSeconds ttl handler) ctx key dest
     = cacheGetter_Get lib handler ctx key dest)
  /\ (forall cacheTtl g now r,
        proxyCache_ServeHTTP lib (NewWithCacheControl formatSeconds ttl handler)
          cacheTtl g now r
        = proxyCache_ServeHTTP lib handler cacheTtl g now r).
Proof.
  assert (forall ctx key dest,
            cacheGetter_Get lib (NewWithCacheControl formatSeconds ttl handler) ctx key dest
            = cacheGetter_Get lib handler ctx key dest) as Hget.
  { intros ctx key dest.
    destruct (createRequest lib ctx) as [req|e] eqn:Hreq.
    - rewrite !(Get_closed_form _ _ _ _ _ _ Hreq).
      unfold NewWithCacheControl.
      by rewrite !lastStatus_statusCalls, statusCalls_cacheControl, written_cacheControl.
    - unfold cacheGetter_Get. by rewrite Hreq. }
  split; [exact Hget|].
  intros cacheTtl g now r.
  unfold proxyCache_ServeHTTP, NewGroupCache_Get, Group_Get. by rewrite Hget.
Qed.

Example NewWithCacheControl_samples :
  NewWithCacheControl (fun d => pretty (d / Second)%Z) Examples.minute ownCacheControl
    Examples.data
  = [CallHeaderSet "Cache-Control" "no-store";
     CallHeaderSet "Cache-Control" "max-age=60, private";
     CallWriteHeader 200; CallWrite "ok"]
  /\ NewWithCacheControl (fun d => pretty (d / Second)%Z) Examples.minute Examples.hello
       Examples.data
     = Examples.hello Examples.data.
Proof. split; vm_compute; reflexivity. Qed.

Example proxyPath_samples :
  proxyPath "/api" = "/api/" /\ proxyPath "/api//" = "/api/" /\ proxyPath "" = "/".
Proof. repeat split. Qed.
